(** * cog: local image builder and local Docker serving platform

    A shallow embedding of [pkg/docker/local_builder.go] (package [docker]),
    of the [serving] package's example/result types and of its local Docker
    platform (deploy polling and inference), together with the properties
    the design document states about them.

    Go strings are byte strings: they are embedded as [string] (lists of
    8-bit [ascii]).  Go maps are [gmap]s.  Functions of the Go standard
    library that the code calls are modelled in the modules [strings],
    [strconv] and [filepath] below, and the regular expression of the
    builder next to its use. *)

From Stdlib Require Import ZArith Ascii String List Bool Lia.
From Stdlib Require Import DecimalString.
From Stdlib Require Import Floats.SpecFloat.
From stdpp Require Import base option list gmap strings.

Local Open Scope string_scope.
Local Open Scope Z_scope.

(** String concatenation reduces on a constructor, as list concatenation
    does. *)
#[local] Arguments String.append !s1 s2.

(* ===================================================================== *)
(** * Go standard library: package strings                                *)
(* ===================================================================== *)

Module strings.

(** The byte value of a character. *)
Definition code (c : ascii) : Z := Z.of_N (N_of_ascii c).

(** [strings.HasPrefix(s, prefix)]. *)
Fixpoint HasPrefix (s prefix : string) {struct prefix} : bool :=
  match prefix, s with
  | EmptyString, _ => true
  | String p ps, String c cs => if Ascii.eqb c p then HasPrefix cs ps else false
  | String _ _, EmptyString => false
  end.

(** [s[n:]] for [n <= len(s)]. *)
Fixpoint drop (n : nat) (s : string) : string :=
  match n, s with
  | O, _ => s
  | S k, String _ cs => drop k cs
  | S _, EmptyString => EmptyString
  end.

(** [s[:n]] for [n <= len(s)]. *)
Fixpoint take (n : nat) (s : string) : string :=
  match n, s with
  | O, _ => EmptyString
  | S k, String c cs => String c (take k cs)
  | S _, EmptyString => EmptyString
  end.

(** [strings.TrimPrefix(s, prefix)]. *)
Definition TrimPrefix (s prefix : string) : string :=
  if HasPrefix s prefix then drop (String.length prefix) s else s.

(** [strings.Cut(s, sep)]: the text before and after the first
    occurrence of [sep]; [strings.Index] finds the same occurrence. *)
Fixpoint Cut (s sep : string) : option (string * string) :=
  if HasPrefix s sep then Some (EmptyString, drop (String.length sep) s)
  else match s with
       | EmptyString => None
       | String c cs =>
           match Cut cs sep with
           | Some (before, after) => Some (String c before, after)
           | None => None
           end
       end.

(** [strings.Contains(s, substr)]. *)
Definition Contains (s substr : string) : bool :=
  match Cut s substr with Some _ => true | None => false end.

(** [strings.SplitN(s, sep, 2)] for a non-empty [sep]: one element when
    [sep] does not occur, otherwise the text before and the text after
    the first occurrence. *)
Definition SplitN2 (s sep : string) : list string :=
  match Cut s sep with
  | Some (before, after) => [before; after]
  | None => [s]
  end.

(** [strings.Split(s, sep)[0]] for a non-empty [sep]. *)
Definition Split0 (s sep : string) : string :=
  match Cut s sep with
  | Some (before, _) => before
  | None => s
  end.

(** White space as [unicode.IsSpace] has it, in UTF-8: the ASCII
    characters tab, LF, VT, FF, CR and space, and the encodings of U+0085,
    U+00A0, U+1680, U+2000..U+200A, U+2028, U+2029, U+202F, U+205F and
    U+3000. *)
Definition asciiSpace (c : ascii) : bool :=
  let n := code c in ((9 <=? n) && (n <=? 13)) || (n =? 32).

Definition bytes (l : list Z) : string :=
  fold_right (fun n s => String (ascii_of_N (Z.to_N n)) s) EmptyString l.

Definition unicodeSpaces : list string :=
  map bytes
    ([ [194; 133]; [194; 160]; [225; 154; 128] ]
     ++ map (fun k => [226; 128; 128 + k]) [0; 1; 2; 3; 4; 5; 6; 7; 8; 9; 10]
     ++ [ [226; 128; 168]; [226; 128; 169]; [226; 128; 175];
          [226; 129; 159]; [227; 128; 128] ]).

(** The length in bytes of the white-space rune [s] starts with; 0 when
    [s] does not start with one. *)
Definition spaceWidth (s : string) : nat :=
  match s with
  | EmptyString => O
  | String c _ =>
      if asciiSpace c then 1%nat
      else match List.find (HasPrefix s) unicodeSpaces with
           | Some enc => String.length enc
           | None => O
           end
  end.

(** [strings.TrimLeftFunc(s, unicode.IsSpace)]. *)
Fixpoint TrimLeftSpace_fuel (fuel : nat) (s : string) : string :=
  match fuel with
  | O => s
  | S k => match spaceWidth s with
           | O => s
           | w => TrimLeftSpace_fuel k (drop w s)
           end
  end.

Definition TrimLeftSpace (s : string) : string :=
  TrimLeftSpace_fuel (String.length s) s.

Fixpoint rev (s : string) : string :=
  match s with
  | EmptyString => EmptyString
  | String c cs => rev cs ++ String c EmptyString
  end.

(** The length in bytes of the white-space rune [s] ends with
    ([utf8.DecodeLastRuneInString] followed by [unicode.IsSpace]), given
    the reversed string. *)
Definition spaceWidthLast (r : string) : nat :=
  match r with
  | EmptyString => O
  | String c _ =>
      if asciiSpace c then 1%nat
      else match List.find (fun enc => HasPrefix r (rev enc)) unicodeSpaces with
           | Some enc => String.length enc
           | None => O
           end
  end.

Fixpoint TrimRightSpace_fuel (fuel : nat) (r : string) : string :=
  match fuel with
  | O => r
  | S k => match spaceWidthLast r with
           | O => r
           | w => TrimRightSpace_fuel k (drop w r)
           end
  end.

(** [strings.TrimRightFunc(s, unicode.IsSpace)]. *)
Definition TrimRightSpace (s : string) : string :=
  rev (TrimRightSpace_fuel (String.length s) (rev s)).

(** Strings made of white-space runes only. *)
Inductive Spaces : string -> Prop :=
| Spaces_nil : Spaces EmptyString
| Spaces_ascii c s : asciiSpace c = true -> Spaces s -> Spaces (String c s)
| Spaces_rune enc s : In enc unicodeSpaces -> Spaces s -> Spaces (enc ++ s).

(** [strings.TrimSpace(s)]: leading and trailing white space removed. *)
Definition TrimSpace (s : string) : string :=
  TrimRightSpace (TrimLeftSpace s).

End strings.

(* ===================================================================== *)
(** * Go standard library: package strconv                                *)
(* ===================================================================== *)

Module strconv.
Import strings.

(** A [float64] is an IEEE-754 binary64 value. *)
Definition float64 : Type := spec_float.
Definition prec : Z := 53.
Definition emax : Z := 1024.

(** The two errors a [*strconv.NumError] of [ParseFloat] carries. *)
Inductive NumError : Type := ErrSyntax | ErrRange.

Definition zero : float64 := S754_zero false.
Definition Inf (neg : bool) : float64 := S754_infinity neg.
Definition NaN : float64 := S754_nan.

(** The [float64] nearest to the integer [n] (exact for small [n]). *)
Definition ofZ (n : Z) : float64 := binary_normalize prec emax n 0 false.

(** [lower(c)] is [c | ('x' ^ 'X')]. *)
Definition lower (c : ascii) : Z := Z.lor (code c) 32.

Definition isDigit (c : ascii) : bool := (48 <=? code c) && (code c <=? 57).
Definition isHexLetter (c : ascii) : bool := (97 <=? lower c) && (lower c <=? 102).

(** [commonPrefixLenIgnoreCase(s, prefix)], [prefix] in lower case. *)
Fixpoint commonPrefixLenIgnoreCase (s prefix : string) : nat :=
  match s, prefix with
  | String c cs, String p ps =>
      let c' := if (65 <=? code c) && (code c <=? 90) then code c + 32 else code c in
      if c' =? code p then S (commonPrefixLenIgnoreCase cs ps) else O
  | _, _ => O
  end.

(** [special(s)]: the value and the unread rest when [s] starts with a
    possibly signed infinity or with a NaN. *)
Definition special (s : string) : option (float64 * string) :=
  let inf (neg : bool) (t : string) :=
    let n := commonPrefixLenIgnoreCase t "infinity" in
    let n := if (3 <? n)%nat && (n <? 8)%nat then 3%nat else n in
    if (n =? 3)%nat || (n =? 8)%nat then Some (Inf neg, drop n t) else None in
  match s with
  | EmptyString => None
  | String c t =>
      if code c =? 43 then inf false t
      else if code c =? 45 then inf true t
      else if (code c =? 105) || (code c =? 73) then inf false s
      else if (code c =? 110) || (code c =? 78) then
        if (commonPrefixLenIgnoreCase s "nan" =? 3)%nat then Some (NaN, drop 3 s) else None
      else None
  end.

(** The digits of a mantissa: their value as an integer in the base, and
    how many of them follow the point.  Go keeps the first 19 (16 in
    base 16) digits in a [uint64] and a flag for the rest and rounds
    from all of them; the integer here is unbounded. *)
Record mantissa : Type := {
  sawdot : bool;
  sawdigits : bool;
  underscores : bool;
  digits : Z;
  fracDigits : Z
}.

Definition addDigit (base d : Z) (m : mantissa) : mantissa :=
  {| sawdot := sawdot m; sawdigits := true; underscores := underscores m;
     digits := digits m * base + d;
     fracDigits := if sawdot m then fracDigits m + 1 else fracDigits m |}.

(** The digit loop of [readFloat]. *)
Fixpoint readDigits (hex : bool) (s : string) (m : mantissa) : mantissa * string :=
  match s with
  | EmptyString => (m, s)
  | String c t =>
      if code c =? 95 then
        readDigits hex t {| sawdot := sawdot m; sawdigits := sawdigits m; underscores := true;
                            digits := digits m; fracDigits := fracDigits m |}
      else if code c =? 46 then
        if sawdot m then (m, s)
        else readDigits hex t {| sawdot := true; sawdigits := sawdigits m;
                                 underscores := underscores m;
                                 digits := digits m; fracDigits := fracDigits m |}
      else if isDigit c then readDigits hex t (addDigit (if hex then 16 else 10) (code c - 48) m)
      else if hex && isHexLetter c then readDigits hex t (addDigit 16 (lower c - 97 + 10) m)
      else (m, s)
  end.

(** The digit loop of the exponent: the exponent read so far (it stops
    growing once it has reached 10000), whether an underscore was seen,
    and the unread rest. *)
Fixpoint readExpDigits (s : string) (e : Z) (us : bool) : Z * bool * string :=
  match s with
  | EmptyString => (e, us, s)
  | String c t =>
      if code c =? 95 then readExpDigits t e true
      else if isDigit c then readExpDigits t (if e <? 10000 then e * 10 + (code c - 48) else e) us
      else (e, us, s)
  end.

(** [underscoreOK(s)]: underscores only between digits (or after the base
    prefix).  [saw] is the kind of the last character. *)
Inductive saw : Type := sawStart | sawDigit | sawUnderscore | sawOther.

Fixpoint underscoreLoop (hex : bool) (s : string) (w : saw) : bool :=
  match s with
  | EmptyString => match w with sawUnderscore => false | _ => true end
  | String c t =>
      if isDigit c || (hex && isHexLetter c) then underscoreLoop hex t sawDigit
      else if code c =? 95 then
        match w with sawDigit => underscoreLoop hex t sawUnderscore | _ => false end
      else match w with sawUnderscore => false | _ => underscoreLoop hex t sawOther end
  end.

Definition underscoreOK (s : string) : bool :=
  let s := match s with
           | String c t => if (code c =? 45) || (code c =? 43) then t else s
           | EmptyString => s
           end in
  match s with
  | String c0 (String c1 t) =>
      if (code c0 =? 48) && ((lower c1 =? 98) || (lower c1 =? 111) || (lower c1 =? 120))
      then underscoreLoop (lower c1 =? 120) t sawDigit
      else underscoreLoop false s sawStart
  | _ => underscoreLoop false s sawStart
  end.

(** What [readFloat] returns when it succeeds: sign, base, all the digits,
    the exponent of the base (10, or 2 for a hexadecimal mantissa) to
    apply to the integer [digits], and the unread rest. *)
Record number : Type := {
  neg : bool;
  hex : bool;
  mant : Z;
  exp : Z;
  rest : string
}.

Definition readFloat (s : string) : option number :=
  match s with
  | EmptyString => None
  | String c t =>
      let '(ng, s1) := if code c =? 43 then (false, t)
                       else if code c =? 45 then (true, t) else (false, s) in
      let '(hx, s2) :=
        match s1 with
        | String c0 (String c1 (String c2 u)) =>
            if (code c0 =? 48) && (lower c1 =? 120) then (true, String c2 u) else (false, s1)
        | _ => (false, s1)
        end in
      let '(m, s3) := readDigits hx s2
                        {| sawdot := false; sawdigits := false; underscores := false;
                           digits := 0; fracDigits := 0 |} in
      if negb (sawdigits m) then None
      else
        let dp := if hx then - (4 * fracDigits m) else - fracDigits m in
        let finish (e : Z) (us : bool) (r : string) :=
          if us && negb (underscoreOK (take (String.length s - String.length r) s)) then None
          else Some {| neg := ng; hex := hx; mant := digits m; exp := dp + e; rest := r |} in
        match s3 with
        | String ce s4 =>
            if lower ce =? (if hx then 112 else 101) then
              match s4 with
              | EmptyString => None
              | String cs s5 =>
                  let '(esign, s6) := if code cs =? 43 then (1, s5)
                                      else if code cs =? 45 then (-1, s5) else (1, s4) in
                  match s6 with
                  | String cd _ =>
                      if isDigit cd then
                        let '(e, us, r) := readExpDigits s6 0 (underscores m) in
                        finish (e * esign) us r
                      else None
                  | EmptyString => None
                  end
              end
            else if hx then None
            else finish 0 (underscores m) s3
        | EmptyString => if hx then None else finish 0 (underscores m) s3
        end
  end.

(** The [float64] nearest (ties to even) to [mant * base^exp] where the
    base is 10, or 2 for a hexadecimal mantissa; an infinity when that
    is out of range. *)
Definition nearest (n : number) : float64 :=
  if mant n =? 0 then S754_zero (neg n)
  else
    let b := if hex n then 2 else 10 in
    let num := mant n * b ^ Z.max (exp n) 0 in
    let den := b ^ Z.max (- exp n) 0 in
    SFdiv prec emax (S754_finite (neg n) (Z.to_pos num) 0) (S754_finite false (Z.to_pos den) 0).

(** [atof64(s)]: the value, the unread rest and the error. *)
Definition atof64 (s : string) : float64 * string * option NumError :=
  match special s with
  | Some (v, r) => (v, r, None)
  | None =>
      match readFloat s with
      | None => (zero, s, Some ErrSyntax)
      | Some n =>
          let f := nearest n in
          match f with
          | S754_infinity _ => (f, rest n, Some ErrRange)
          | _ => (f, rest n, None)
          end
      end
  end.

(** [strconv.ParseFloat(s, 64)]. *)
Definition ParseFloat (s : string) : float64 * option NumError :=
  let '(f, r, err) := atof64 s in
  match r, err with
  | EmptyString, _ => (f, err)
  | _, Some ErrSyntax => (f, err)
  | _, _ => (zero, Some ErrSyntax)
  end.

End strconv.

(* ===================================================================== *)
(** * Go standard library: package path/filepath (Unix)                   *)
(* ===================================================================== *)

Module filepath.
Import strings.

Definition isSep (c : ascii) : bool := code c =? 47.

(** The elements of [path] between separators, empty ones included. *)
Fixpoint elements (path : string) : list string :=
  match path with
  | EmptyString => [EmptyString]
  | String c cs =>
      if isSep c then EmptyString :: elements cs
      else match elements cs with
           | e :: es => String c e :: es
           | [] => [String c EmptyString]
           end
  end.

(** One step of [Clean]'s loop.  [out] holds the elements written so far,
    the last one first; the [..] elements in it are the ones a relative
    path could not back out of. *)
Definition cleanStep (rooted : bool) (out : list string) (e : string) : list string :=
  if String.eqb e "" || String.eqb e "." then out
  else if String.eqb e ".." then
    match out with
    | top :: below => if String.eqb top ".." then e :: out else below
    | [] => if rooted then out else [e]
    end
  else e :: out.

Fixpoint joinSep (es : list string) : string :=
  match es with
  | [] => EmptyString
  | [e] => e
  | e :: r => e ++ "/" ++ joinSep r
  end.

(** [filepath.Clean(path)]. *)
Definition Clean (path : string) : string :=
  match path with
  | EmptyString => "."
  | String c _ =>
      let rooted := isSep c in
      let out := List.rev (fold_left (cleanStep rooted) (elements path) []) in
      if rooted then "/" ++ joinSep out
      else match out with [] => "." | _ => joinSep out end
  end.

(** [filepath.Join(a, b)]. *)
Definition Join (a b : string) : string :=
  if negb (String.eqb a "") then Clean (a ++ "/" ++ b)
  else if negb (String.eqb b "") then Clean b
  else EmptyString.

Fixpoint dropSeps (s : string) : string :=
  match s with
  | String c cs => if isSep c then dropSeps cs else s
  | EmptyString => s
  end.

Fixpoint untilSep (s : string) : string :=
  match s with
  | String c cs => if isSep c then EmptyString else String c (untilSep cs)
  | EmptyString => s
  end.

(** [filepath.Base(path)]: the last element, trailing separators
    removed. *)
Definition Base (path : string) : string :=
  match path with
  | EmptyString => "."
  | _ => match rev (untilSep (dropSeps (rev path))) with
         | EmptyString => "/"
         | b => b
         end
  end.

End filepath.

(* ===================================================================== *)
(** * Errors and outcomes                                                 *)
(* ===================================================================== *)

(** A Go [error] value.  The code tells a [*exec.ExitError] (the state of
    the exited process and the standard error [Cmd.Output] collected) from
    every other error, of which only the message is observed. *)
Inductive error : Type :=
| ExitError (ProcessState : string) (Stderr : string)
| errorString (msg : string).

(** [err.Error()]. *)
Definition Error (e : error) : string :=
  match e with
  | ExitError st _ => st
  | errorString m => m
  end.

(** How a call ends: it returns, it panics, or it ends the whole process
    ([console.Fatal]). *)
Inductive outcome (A : Type) : Type :=
| Returned (a : A)
| Panicked (reason : string)
| Fatal (message : string).
Arguments Returned {A} a.
Arguments Panicked {A} reason.
Arguments Fatal {A} message.

(** A line written to a [logger.Logger]. *)
Inductive LogLine : Type :=
| LDebug (line : string)
| LInfo (line : string)
| LError (line : string).

(** [fmt.Sprintf("%d", n)]. *)
Definition itoa (n : Z) : string := NilZero.string_of_int (Z.to_int n).

(* ===================================================================== *)
(** * Package docker: pkg/docker/local_builder.go                         *)
(* ===================================================================== *)

Module docker.
Import strings.

Definition noRegistry : string := "no_registry".

Record LocalImageBuilder : Type := { registry : string }.

Definition NewLocalImageBuilder (registry : string) : LocalImageBuilder :=
  {| registry := if String.eqb registry "" then noRegistry else registry |}.

(** ** The build log scanner of [buildPipe] *)

Fixpoint spanDigits (s : string) : string * string :=
  match s with
  | String c cs =>
      if strconv.isDigit c then let '(ds, r) := spanDigits cs in (String c ds, r)
      else (EmptyString, s)
  | EmptyString => (EmptyString, s)
  end.

Definition isLowerHex (c : ascii) : bool :=
  strconv.isDigit c || ((97 <=? code c) && (code c <=? 102)).

Fixpoint allChars (p : ascii -> bool) (s : string) : bool :=
  match s with
  | EmptyString => true
  | String c cs => p c && allChars p cs
  end.

Definition writingImage : string := " writing image sha256:".

(** [buildkitRegex.FindStringSubmatch(line)] for the expression
    [^#[0-9]+ writing image sha256:([0-9a-f]{12}).+$]: the captured
    digest when the line matches ([.] matches every character but a
    line feed), so that the submatch slice has length 2. *)
Definition buildkitMatch (line : string) : option string :=
  match line with
  | String c r =>
      if code c =? 35 then
        let '(ds, r1) := spanDigits r in
        if String.eqb ds "" then None
        else if HasPrefix r1 writingImage then
          let r2 := drop (String.length writingImage) r1 in
          let digest := take 12 r2 in
          let tail := drop 12 r2 in
          if (String.length digest =? 12)%nat && allChars isLowerHex digest
             && negb (String.eqb tail "")
             && allChars (fun c => negb (code c =? 10)) tail
          then Some digest else None
        else None
      else None
  | EmptyString => None
  end.

Definition successPrefix : string := "Successfully built ".

(** What the scanning goroutine does, in program order: it writes to the
    logger, and it sends on one of its two unbuffered channels, which
    blocks until the value is received. *)
Inductive Action : Type :=
| ALog (l : LogLine)
| ASendTag (tag : string)
| ASendLastLogs (lines : list string).

(** The goroutine's variables. *)
Record scanState : Type := {
  currentSection : string;
  currentLogLines : list string
}.

Section Builder.
(** [SectionPrefix] and [SectionStartingBuild] are constants of package
    [docker] declared in another file of the package. *)
Variable SectionPrefix : string.
Variable SectionStartingBuild : string.

Definition sectionPrefix : string := "RUN " ++ SectionPrefix.

(** A section-marker line. *)
Definition isMarker (line : string) : bool := Contains line sectionPrefix.

(** The body of the [for scanner.Scan()] loop for one line: the new
    variables and what the goroutine did.  [SplitN(..., 2)[1]] exists
    because the line contains the (non-empty) separator. *)
Definition scanLine (st : scanState) (line : string) : scanState * list Action :=
  let '(st', section) :=
    if Contains line sectionPrefix then
      let sec := nth 1 (SplitN2 line sectionPrefix) EmptyString in
      ({| currentSection := sec; currentLogLines := [] |},
       [ALog (LInfo ("  * " ++ sec))])
    else
      ({| currentSection := currentSection st;
          currentLogLines := (currentLogLines st ++ [line])%list |}, []) in
  let legacy :=
    if HasPrefix line successPrefix
    then [ASendTag (TrimSpace (TrimPrefix line successPrefix))] else [] in
  let buildkit :=
    match buildkitMatch line with
    | Some digest => [ASendTag digest]
    | None => []
    end in
  (st', (ALog (LDebug line) :: section ++ legacy ++ buildkit)%list).

(** The loop over the lines the scanner yields. *)
Fixpoint scanLoop (st : scanState) (lines : list string) : scanState * list Action :=
  match lines with
  | [] => (st, [])
  | line :: rest =>
      let '(st1, a1) := scanLine st line in
      let '(st2, a2) := scanLoop st1 rest in
      (st2, (a1 ++ a2)%list)
  end.

Definition scanStart : scanState :=
  {| currentSection := SectionStartingBuild; currentLogLines := [] |}.

(** The whole goroutine on the lines [scanner.Scan()] gives it, the ones
    a pipe yields being [scanned] below: the loop, then the trailing log
    window is sent on [lastLogsChan]. *)
Definition scanner (lines : list string) : list Action :=
  let '(st, acts) := scanLoop scanStart lines in
  (acts ++ [ASendLastLogs (currentLogLines st)])%list.

(** The trailing log window at the end of the stream. *)
Definition lastLogs (lines : list string) : list string :=
  currentLogLines (fst (scanLoop scanStart lines)).

(** The tags the goroutine sends, in order. *)
Definition tagsOf (acts : list Action) : list string :=
  flat_map (fun a => match a with ASendTag t => [t] | _ => [] end) acts.

Definition logsOf (acts : list Action) : list LogLine :=
  flat_map (fun a => match a with ALog l => [l] | _ => [] end) acts.

(** The tags one line makes the goroutine send. *)
Definition lineTags (line : string) : list string :=
  ((if HasPrefix line successPrefix
    then [TrimSpace (TrimPrefix line successPrefix)] else [])
   ++ match buildkitMatch line with
      | Some digest => [digest]
      | None => []
      end)%list.

(** The number of section-marker lines of a stream. *)
Fixpoint countMarkers (lines : list string) : nat :=
  match lines with
  | [] => O
  | line :: rest => if isMarker line then S (countMarkers rest) else countMarkers rest
  end.

(** The lines of a stream that follow its [n]-th section-marker line
    (the whole stream for [n = 0]). *)
Fixpoint afterNthMarker (n : nat) (lines : list string) : list string :=
  match n, lines with
  | O, _ => lines
  | S _, [] => []
  | S k, line :: rest => afterNthMarker (if isMarker line then k else S k) rest
  end.

Definition isSendLastLogs (a : Action) : bool :=
  match a with ASendLastLogs _ => true | _ => false end.

(** ** [build]: the caller and the goroutine

    The external build process, as [build] observes it: whether the
    pipe could be made, whether the process started, what [cmd.Wait]
    returned, and the lines the scanner read from its output. *)
Record Process : Type := {
  pipeErr : option error;
  startErr : option error;
  waitErr : option error;
  stdoutLines : list string
}.

(** Where [build] is, once [buildPipe] has returned. *)
Inductive buildPC : Type :=
| pcStart                        (* before cmd.Start() *)
| pcWait                         (* before cmd.Wait() returns *)
| pcRecvLastLogs (err : error)   (* at <-lastLogsChan *)
| pcRecvTag                      (* at <-tagChan *)
| pcLogTag (tag : string)        (* before logWriter.Infof *)
| pcReturn (tag : string) (err : option error).

(** [build] and the goroutine of [buildPipe], and what has been
    written to the logger. *)
Record System : Type := {
  pc : buildPC;
  goroutine : list Action;
  logged : list LogLine
}.

(** [buildPipe(pf, logWriter)]: the error of [pf()], or the goroutine it
    starts on the pipe (its two channels are the goroutine's sends). *)
Definition buildPipe (pf : option error) (lines : list string) : list Action + error :=
  match pf with
  | Some e => inr e
  | None => inl (scanner lines)
  end.

(** [build] when [buildPipe] has returned: it has returned the error of
    the pipe, or it is about to start the process next to the goroutine. *)
Definition build (p : Process) : System :=
  match buildPipe (pipeErr p) (stdoutLines p) with
  | inr e => {| pc := pcReturn "" (Some e); goroutine := []; logged := [] |}
  | inl g => {| pc := pcStart; goroutine := g; logged := [] |}
  end.

(** The step [build] can take, if any.  The two receives need the
    goroutine to be at the matching send. *)
Definition stepBuild (p : Process) (s : System) : option System :=
  match pc s with
  | pcStart =>
      Some {| pc := match startErr p with
                    | Some e => pcReturn "" (Some e)
                    | None => pcWait
                    end;
              goroutine := goroutine s; logged := logged s |}
  | pcWait =>
      Some {| pc := match waitErr p with
                    | Some e => pcRecvLastLogs e
                    | None => pcRecvTag
                    end;
              goroutine := goroutine s; logged := logged s |}
  | pcRecvLastLogs e =>
      match goroutine s with
      | ASendLastLogs w :: rest =>
          Some {| pc := pcReturn "" (Some e); goroutine := rest;
                  logged := (logged s ++ List.map LInfo w)%list |}
      | _ => None
      end
  | pcRecvTag =>
      match goroutine s with
      | ASendTag t :: rest =>
          Some {| pc := pcLogTag t; goroutine := rest; logged := logged s |}
      | _ => None
      end
  | pcLogTag t =>
      Some {| pc := pcReturn t None; goroutine := goroutine s;
              logged := (logged s ++ [LInfo ("Successfully built " ++ t)])%list |}
  | pcReturn _ _ => None
  end.

(** The step the goroutine can take on its own, if any. *)
Definition stepGoroutine (s : System) : option System :=
  match goroutine s with
  | ALog l :: rest =>
      Some {| pc := pc s; goroutine := rest; logged := (logged s ++ [l])%list |}
  | _ => None
  end.

(** All the states one step away, under any scheduling. *)
Definition steps (p : Process) (s : System) : list System :=
  (option_list (stepBuild p s) ++ option_list (stepGoroutine s))%list.

Definition returned (s : System) : bool :=
  match pc s with pcReturn _ _ => true | _ => false end.

(** [alwaysReaches p P s]: on every schedule, [build] has returned
    after finitely many steps from [s], in a state that satisfies [P]. *)
Inductive alwaysReaches (p : Process) (P : System -> Prop) : System -> Prop :=
| reachesNow s : returned s = true -> P s -> alwaysReaches p P s
| reachesLater s :
    returned s = false ->
    steps p s <> [] ->
    (forall s', In s' (steps p s) -> alwaysReaches p P s') ->
    alwaysReaches p P s.

(** The states some schedule reaches. *)
Inductive reachable (p : Process) : System -> System -> Prop :=
| reachRefl s : reachable p s s
| reachStep s s1 s2 : In s1 (steps p s) -> reachable p s1 s2 -> reachable p s s2.

(** A fair scheduler for running the model: [build] moves when it can,
    the goroutine otherwise. *)
Fixpoint run (p : Process) (fuel : nat) (s : System) : System :=
  match fuel with
  | O => s
  | S k => match steps p s with
           | s' :: _ => if returned s then s else run p k s'
           | [] => s
           end
  end.

End Builder.

(** ** [tag] and [push] *)

(** [tag]: [output] is the error of [cmd.Output()] for [docker tag]. *)
Definition tag (tagName fullImageTag : string) (output : option error)
  : outcome (option error) :=
  match output with
  | None => Returned None
  | Some (ExitError _ stderr) =>
      Returned (Some (errorString
        ("Failed to tag " ++ tagName ++ " as " ++ fullImageTag
         ++ ", got error: " ++ stderr)))
  | Some (errorString _) =>
      Panicked "interface conversion: error is not *exec.ExitError"
  end.

Definition daemonDown : string := "Cannot connect to the Docker daemon".
Definition grpcUpgrade : string :=
  "failed to dial gRPC: unable to upgrade to h2c, received 502".

(** The handler [pipeToWithDockerChecks] gives to [shell.PipeTo], on one
    line: a fatal message, or the line written to the logger. *)
Definition dockerCheck (line : string) : string + LogLine :=
  if Contains line daemonDown then
    inl "Docker does not appear to be running; please start Docker and try again"
  else if Contains line grpcUpgrade then
    inl "Your Docker version appears to be out out date; please upgrade Docker to the latest version and try again"
  else inr (LInfo line).

(** Modelled from the spec: [shell.PipeTo] (package [shell]) and
    [console.Fatal] (package [console]) are not among the sources.
    [PipeTo] hands every line of the pipe to the handler, in order, and
    then signals [done]; [console.Fatal] reports the message as a fatal
    condition and nothing of the caller runs after it. *)
Fixpoint pipeToWithDockerChecks (lines : list string) (log : list LogLine)
  : option string * list LogLine :=
  match lines with
  | [] => (None, log)
  | line :: rest =>
      match dockerCheck line with
      | inl fatal => (Some fatal, log)
      | inr l => pipeToWithDockerChecks rest (log ++ [l])%list
      end
  end.

(** [push]: [stderrPipe] is the error of [cmd.StderrPipe], [stderrLines]
    the lines of the standard error of [docker push], [runErr] the error
    of [cmd.Run()].  The outcome and what was written to the logger. *)
Definition push (tagName : string) (stderrPipe : option error)
    (stderrLines : list string) (runErr : option error)
  : outcome (option error) * list LogLine :=
  let log := [LInfo ("Pushing " ++ tagName ++ " to registry")] in
  match stderrPipe with
  | Some e => (Returned (Some e), log)
  | None =>
      match pipeToWithDockerChecks stderrLines log with
      | (Some fatal, log') => (Fatal fatal, log')
      | (None, log') => (Returned runErr, log')
      end
  end.

(** ** [BuildAndPush] *)

(** [fmt.Sprintf("%s/%s:%s", b.registry, name, tag)]. *)
Definition fullImageTagOf (b : LocalImageBuilder) (name tagName : string) : string :=
  registry b ++ "/" ++ name ++ ":" ++ tagName.

(** [BuildAndPush] from the return of [build] on: [built] is what [build]
    returned, [tagOutput] the error of [cmd.Output()] for [docker tag], and
    [stderrPipe], [stderrLines] and [runErr] are what [push] meets, as for
    [push].  The outcome, and what [tag] and [push] wrote to the
    logger. *)
Definition BuildAndPush (b : LocalImageBuilder) (name : string)
    (built : string * option error) (tagOutput : option error)
    (stderrPipe : option error) (stderrLines : list string) (runErr : option error)
  : outcome (string * option error) * list LogLine :=
  match built with
  | (_, Some err) => (Returned (EmptyString, Some err), [])
  | (tagName, None) =>
      let full := fullImageTagOf b name tagName in
      match tag tagName full tagOutput with
      | Panicked r => (Panicked r, [])
      | Fatal m => (Fatal m, [])
      | Returned (Some err) => (Returned (EmptyString, Some err), [])
      | Returned None =>
          if negb (String.eqb (registry b) noRegistry) then
            match push full stderrPipe stderrLines runErr with
            | (Panicked r, log) => (Panicked r, log)
            | (Fatal m, log) => (Fatal m, log)
            | (Returned (Some err), log) => (Returned (EmptyString, Some err), log)
            | (Returned None, log) => (Returned (full, None), log)
            end
          else (Returned (full, None), [])
      end
  end.

(** The lines written at debug level, and the lines written at info
    level. *)
Definition debugLines (log : list LogLine) : list string :=
  flat_map (fun l => match l with LDebug t => [t] | _ => [] end) log.

Definition infoLines (log : list LogLine) : list string :=
  flat_map (fun l => match l with LInfo t => [t] | _ => [] end) log.

(** ** The lines [bufio.Scanner] gives to the loop of [buildPipe]

    [bufio.NewScanner(pipe)] splits with [bufio.ScanLines] and keeps its
    default buffer, which grows to [bufio.MaxScanTokenSize] bytes and no
    further.  [Scan] yields a line when its line feed is within the
    buffer, or when the input ends and text is left; when
    [MaxScanTokenSize] bytes hold no line feed it fails with
    [bufio.ErrTooLong], and a failed read of the pipe ends it after the
    text already read.  In both cases [Scan] returns [false]: the loop of
    [buildPipe] ends as at the end of the input, and [scanner.Err()] is not
    read. *)

Definition isLF (c : ascii) : bool := code c =? 10.

Definition isCR (c : ascii) : bool := code c =? 13.

(** The texts between the line feeds of [data], empty ones included. *)
Fixpoint segments (data : string) : list string :=
  match data with
  | EmptyString => [EmptyString]
  | String c cs =>
      if isLF c then EmptyString :: segments cs
      else match segments cs with
           | e :: es => String c e :: es
           | [] => [String c EmptyString]
           end
  end.

(** The lines of [data] without their line feeds, as [ScanLines] cuts
    them: what follows the last line feed is a line when it is not
    empty. *)
Definition rawLines (data : string) : list string :=
  let segs := segments data in
  match List.last segs EmptyString with
  | EmptyString => removelast segs
  | String _ _ => segs
  end.

(** [dropCR] of package [bufio]: a carriage return at the end of the line
    is removed. *)
Fixpoint dropCR (line : string) : string :=
  match line with
  | EmptyString => EmptyString
  | String c EmptyString => if isCR c then EmptyString else line
  | String c cs => String c (dropCR cs)
  end.

(** [bufio.MaxScanTokenSize]. *)
Definition MaxScanTokenSize : Z := 65536.

(** The line, a carriage return included, and its line feed fit the
    buffer. *)
Definition fits (line : string) : bool :=
  Z.of_nat (String.length line) <? MaxScanTokenSize.

(** The lines before the first one that does not fit. *)
Fixpoint takeFitting (lines : list string) : list string :=
  match lines with
  | [] => []
  | line :: rest => if fits line then line :: takeFitting rest else []
  end.

(** The standard output of the build process as the goroutine meets it:
    the bytes the process writes and, when a read of the pipe fails, how
    many of them were read before. *)
Record Pipe : Type := {
  written : string;
  failsAfter : option nat
}.

(** The bytes the scanner reads. *)
Definition delivered (p : Pipe) : string :=
  match failsAfter p with
  | Some n => take n (written p)
  | None => written p
  end.

(** The values of [scanner.Text()] in the loop of [buildPipe], one for
    each [scanner.Scan()] that returns [true]. *)
Definition scanned (p : Pipe) : list string :=
  List.map dropCR (takeFitting (rawLines (delivered p))).

(** The lines of a log stream, without their line ends. *)
Definition linesOf (data : string) : list string :=
  List.map dropCR (rawLines data).

(** The goroutine of [buildPipe] on a pipe. *)
Definition scanPipe (SectionPrefix SectionStartingBuild : string) (p : Pipe)
  : list Action :=
  scanner SectionPrefix SectionStartingBuild (scanned p).

(** No byte of the text is a line feed. *)
Definition noLF (s : string) : bool := allChars (fun c => negb (isLF c)) s.

(** The log stream with the given lines, each ended by a line feed. *)
Fixpoint unlines (lines : list string) : string :=
  match lines with
  | [] => EmptyString
  | line :: rest => line ++ String "010" (unlines rest)
  end.

(** [n] times the byte [c]. *)
Fixpoint replicate (n : nat) (c : ascii) : string :=
  match n with
  | O => EmptyString
  | S k => String c (replicate k c)
  end.

End docker.

(* ===================================================================== *)
(** * Package serving: examples, results and the local Docker platform    *)
(* ===================================================================== *)

Module serving.
Import strings.

(** [ExampleValue]: two pointers, [nil] or the string pointed to. *)
Record ExampleValue : Type := {
  String : option string;
  File : option string
}.

Record Example : Type := { Values : gmap string ExampleValue }.

(** The body of the loop of [NewExample] for one value. *)
Definition newValue (val : string) : ExampleValue :=
  if HasPrefix val "@"
  then {| String := None; File := Some (drop 1 val) |}
  else {| String := Some val; File := None |}.

(** [NewExample(keyVals)]: the loop stores one value per key, in the
    unspecified order of [range]. *)
Definition NewExample (keyVals : gmap string string) : Example :=
  {| Values := map_fold (fun key val values => <[key := newValue val]> values) ∅ keyVals |}.

(** The body of the loop of [NewExampleWithBaseDir] for one value. *)
Definition newValueWithBaseDir (baseDir val : string) : ExampleValue :=
  if HasPrefix val "@"
  then {| String := None; File := Some (filepath.Join baseDir (drop 1 val)) |}
  else {| String := Some val; File := None |}.

(** [NewExampleWithBaseDir(keyVals, baseDir)]. *)
Definition NewExampleWithBaseDir (keyVals : gmap string string) (baseDir : string) : Example :=
  {| Values := map_fold (fun key val values => <[key := newValueWithBaseDir baseDir val]> values)
                        ∅ keyVals |}.

(** A value with exactly one of its two pointers set. *)
Definition exactlyOne (v : ExampleValue) : bool :=
  match String v, File v with
  | Some _, None | None, Some _ => true
  | _, _ => false
  end.

(** [ResultValue]: the bytes the buffer holds, and the MIME type. *)
Record ResultValue : Type := {
  Buffer : string;
  MimeType : string
}.

Record Result : Type := {
  ResultValues : gmap string ResultValue;
  SetupTime : strconv.float64;
  RunTime : strconv.float64
}.

(** ** Readiness polling *)

(** What one iteration of the polling loop observes: the time since
    [start] when the iteration begins (a [time.Duration], in
    nanoseconds), what [ContainerInspect] returns then (an error, or the
    container's state: [nil], or its status), and what [http.Get]
    returns (an error, or the status code of the response). *)
Record Poll : Type := {
  elapsed : Z;
  inspect : error + option string;
  ping : error + Z
}.

Definition StatusOK : Z := 200.

(** [cont.State != nil && (cont.State.Status == "exited" ||
    cont.State.Status == "dead")]. *)
Definition exitedOrDead (state : option string) : bool :=
  match state with
  | Some status => String.eqb status "exited" || String.eqb status "dead"
  | None => false
  end.

Section Polling.
(** [global.StartupTimeout], declared in package [global]. *)
Variable StartupTimeout : Z.

(** One iteration: [Some r] when the loop returns [r], [None] when it
    goes round again. *)
Definition pollOnce (p : Poll) : option (option error) :=
  if StartupTimeout <? elapsed p then Some (Some (errorString "Timed out"))
  else
    match inspect p with
    | inl err => Some (Some (errorString ("Failed to get container status: " ++ Error err)))
    | inr state =>
        if exitedOrDead state
        then Some (Some (errorString "Container exited unexpectedly"))
        else match ping p with
             | inl _ => None
             | inr code => if code =? StatusOK then Some None else None
             end
    end.

(** [waitForContainerReady] on the observations of its iterations, in
    order: what it returns, or [None] while it is still polling when
    the observations end. *)
Fixpoint waitForContainerReady (polls : list Poll) : option (option error) :=
  match polls with
  | [] => None
  | p :: rest =>
      match pollOnce p with
      | Some r => Some r
      | None => waitForContainerReady rest
      end
  end.

(** An iteration at which the container is still starting: the deadline
    has not passed, the container is there and neither exited nor dead,
    and the liveness request fails or is not answered with status 200. *)
Definition stillStarting (p : Poll) : Prop :=
  elapsed p <= StartupTimeout /\
  (exists state, inspect p = inr state /\ exitedOrDead state = false) /\
  ping p <> inr StatusOK.

(** [time.Sleep(100 * time.Millisecond)] in every iteration: each
    iteration begins at least that much later than the one before. *)
Fixpoint clockAdvances (polls : list Poll) : Prop :=
  match polls with
  | p :: ((q :: _) as rest) => elapsed p + 100000000 <= elapsed q /\ clockAdvances rest
  | _ => True
  end.
End Polling.

(** ** Inference *)

Record LocalDockerDeployment : Type := {
  containerID : string;
  port : Z
}.

(** A part of a multipart body: the form name, the file name of a file
    part, and the bytes. *)
Record Part : Type := {
  FormName : string;
  FileName : option string;
  Data : string
}.

Record Request : Type := {
  Method : string;
  URL : string;
  Body : list Part
}.

(** A response: status code, header (canonical keys), and what reading
    the body yields: its bytes, then the end of the body or an error. *)
Record Response : Type := {
  StatusCode : Z;
  Header : gmap string (list string);
  ResponseBody : string * option error
}.

(** [h.Get(key)] for a canonical [key]. *)
Definition Get (h : gmap string (list string)) (key : string) : string :=
  match h !! key with
  | Some (v :: _) => v
  | _ => EmptyString
  end.

(** What is at a path: nothing that [os.Open] can open, or something it
    opens: reading it yields [data] and then the end of the file or
    [readErr], and [Close] returns [closeErr]. *)
Inductive FileNode : Type :=
| CannotOpen (err : error)
| Opens (data : string) (readErr : option error) (closeErr : option error).

(** What the deployment runs against: the file system, the container's
    HTTP server and the engine's container logs. *)
Record World : Type := {
  fs : string -> FileNode;
  roundTrip : Request -> Response + error;
  containerLogs : string + error
}.

(** A message of [console.Errorf]. *)
Inductive ConsoleLine : Type :=
| SetupTimeUnparsed (text : string) (err : strconv.NumError)
| RunTimeUnparsed (text : string) (err : strconv.NumError).

(** What a call leaves behind: the files it opened and has not closed,
    the lines written to the logger, the console messages. *)
Record Effects : Type := {
  openFiles : list string;
  logs : list LogLine;
  console : list ConsoleLine
}.

Definition noEffects : Effects := {| openFiles := []; logs := []; console := [] |}.

Fixpoint removeOne (path : string) (l : list string) : list string :=
  match l with
  | [] => []
  | x :: r => if String.eqb x path then r else x :: removeOne path r
  end.

(** The body of the encoding loop for one field: the part written, or
    the error returned, or a panic; and the files left open. *)
Definition encodeField (w : World) (key : string) (val : ExampleValue) (opened : list string)
  : outcome (Part + error) * list string :=
  match File val with
  | Some path =>
      match fs w path with
      | CannotOpen err => (Returned (inr err), opened)
      | Opens data readErr closeErr =>
          let opened' := path :: opened in
          match readErr with
          | Some err => (Returned (inr err), opened')
          | None =>
              let closed := removeOne path opened' in
              match closeErr with
              | Some err => (Returned (inr err), closed)
              | None =>
                  (Returned (inl {| FormName := key;
                                    FileName := Some (filepath.Base path);
                                    Data := data |}), closed)
              end
          end
      end
  | None =>
      match String val with
      | Some text =>
          (Returned (inl {| FormName := key; FileName := None; Data := text |}), opened)
      | None => (Panicked "invalid memory address or nil pointer dereference", opened)
      end
  end.

(** The encoding loop over the fields in the order [range] yields them. *)
Fixpoint encodeFields (w : World) (fields : list (string * ExampleValue))
    (body : list Part) (opened : list string)
  : outcome (list Part + error) * list string :=
  match fields with
  | [] => (Returned (inl body), opened)
  | (key, val) :: rest =>
      match encodeField w key val opened with
      | (Returned (inl part), opened') => encodeFields w rest (body ++ [part])%list opened'
      | (Returned (inr err), opened') => (Returned (inr err), opened')
      | (Panicked r, opened') => (Panicked r, opened')
      | (Fatal m, opened') => (Fatal m, opened')
      end
  end.

(** [writeContainerLogs]. *)
Definition writeContainerLogs (w : World) : LogLine :=
  match containerLogs w with
  | inl text => LInfo text
  | inr err => LError (Error err)
  end.

(** The sentinel [-1.0] of the two timing fields. *)
Definition unknownTime : strconv.float64 := S754_finite true 4503599627370496 (-52).

(** A timing header: the field keeps [current] when the header is
    absent or empty, and otherwise takes what [strconv.ParseFloat]
    returns; its error, if any, is only reported. *)
Definition timing (text : string) (current : strconv.float64)
  : strconv.float64 * option strconv.NumError :=
  if String.eqb text "" then (current, None) else strconv.ParseFloat text.

(** The decoding of a response with status 200. *)
Definition decode (resp : Response) (eff : Effects) : (Result + error) * Effects :=
  let contentType := Get (Header resp) "Content-Type" in
  let mimeType := Split0 contentType ";" in
  match ResponseBody resp with
  | (_, Some err) => (inr (errorString ("Failed to read response: " ++ Error err)), eff)
  | (buf, None) =>
      let setupTimeStr := Get (Header resp) "X-Setup-Time" in
      let '(setupTime, err1) := timing setupTimeStr unknownTime in
      let runTimeStr := Get (Header resp) "X-Run-Time" in
      let '(runTime, err2) := timing runTimeStr unknownTime in
      let said :=
        (match err1 with Some e => [SetupTimeUnparsed setupTimeStr e] | None => [] end
         ++ match err2 with Some e => [RunTimeUnparsed runTimeStr e] | None => [] end)%list in
      (inl {| ResultValues := {[ "output" := {| Buffer := buf; MimeType := mimeType |} ]};
              SetupTime := setupTime;
              RunTime := runTime |},
       {| openFiles := openFiles eff; logs := logs eff;
          console := (console eff ++ said)%list |})
  end.

(** [RunInference] on the fields of [input.Values] in the order [range]
    yields them.  The body is written to a buffer in memory, whose writes
    do not fail: [CreateFormFile], [CreateFormField], [Write] and
    [mwriter.Close] return no error, and [http.NewRequest] accepts the
    method and the URL. *)
Definition RunInference (w : World) (d : LocalDockerDeployment)
    (fields : list (string * ExampleValue))
  : outcome (Result + error) * Effects :=
  match encodeFields w fields [] [] with
  | (Panicked r, opened) => (Panicked r, {| openFiles := opened; logs := []; console := [] |})
  | (Fatal m, opened) => (Fatal m, {| openFiles := opened; logs := []; console := [] |})
  | (Returned (inr err), opened) =>
      (Returned (inr err), {| openFiles := opened; logs := []; console := [] |})
  | (Returned (inl body), opened) =>
      let url := "http://localhost:" ++ itoa (port d) ++ "/infer" in
      let eff := {| openFiles := opened; logs := []; console := [] |} in
      let failed (msg : string) :=
        (Returned (inr (errorString msg)),
         {| openFiles := opened; logs := [writeContainerLogs w]; console := [] |}) in
      match roundTrip w {| Method := "POST"; URL := url; Body := body |} with
      | inr err => failed ("Failed to POST HTTP request to " ++ url ++ ": " ++ Error err)
      | inl resp =>
          if negb (StatusCode resp =? StatusOK)
          then failed ("/infer call returned status " ++ itoa (StatusCode resp))
          else let '(r, eff') := decode resp eff in (Returned r, eff')
      end
  end.

(** The part of the body a field is encoded as, when it is. *)
Definition partFor (w : World) (field : string * ExampleValue) (part : Part) : Prop :=
  match File (snd field) with
  | Some path =>
      exists data, fs w path = Opens data None None /\
                   part = {| FormName := fst field;
                             FileName := Some (filepath.Base path);
                             Data := data |}
  | None =>
      exists text, String (snd field) = Some text /\
                   part = {| FormName := fst field; FileName := None; Data := text |}
  end.

(** The fields of an example in some order of iteration. *)
Definition rangeOf (input : Example) (fields : list (string * ExampleValue)) : Prop :=
  fields ≡ₚ map_to_list (Values input).

(** ** [Deploy], [Help] and [Undeploy] *)

(** What [mod.ArtifactFor(target)] finds. *)
Record Artifact : Type := {
  Target : string;
  URI : string
}.

(** A call [Deploy] or [Undeploy] makes to change or read a container: a
    pull by the [docker] tool, and the engine's create, start, logs and
    stop (the inspections of the readiness poll are in its
    observations). *)
Inductive EngineCall : Type :=
| CallPull (image : string)
| CallCreate (image : string) (hostPort : Z)
| CallStart (id : string)
| CallLogs (id : string)
| CallStop (id : string).

(** What the host answers during a [Deploy]: [docker.Exists] and
    [docker.Pull] (package [docker]) and [shell.NextFreePort] (package
    [shell]) are declared outside these sources and appear by their
    results; so do the engine's [ContainerCreate] and [ContainerStart].
    [observed] is what the iterations of the readiness poll observe and
    [against] the world the container runs in. *)
Record Host : Type := {
  imagePresent : bool;
  pullResult : option error;
  freePort : Z + error;
  created : string + error;
  started : option error;
  observed : list Poll;
  against : World
}.

(** What a [Deploy] leaves behind: its calls to the engine, in order, and
    the lines it wrote to the logger itself. *)
Record Deployed : Type := {
  result : LocalDockerDeployment + error;
  calls : list EngineCall;
  written : list LogLine
}.

Section Deploying.
Variable StartupTimeout : Z.

(** [Deploy(mod, target, logWriter)], with [artifact] what
    [mod.ArtifactFor(target)] finds: what it returns and leaves behind, or
    [None] while the readiness poll has not returned when the
    observations end.  [nat.NewPort] accepts the port 5000. *)
Definition Deploy (h : Host) (artifact : option Artifact) (target : string)
  : option Deployed :=
  match artifact with
  | None =>
      Some {| result := inr (errorString ("Model has no " ++ target ++ " target"));
              calls := []; written := [] |}
  | Some a =>
      let imageTag := URI a in
      let log0 := [LInfo ("Deploying container " ++ imageTag ++ " for target " ++ Target a)] in
      let pulled := if imagePresent h then [] else [CallPull imageTag] in
      match (if imagePresent h then None else pullResult h) with
      | Some err =>
          Some {| result := inr (errorString
                             ("Failed to pull image " ++ imageTag ++ ": " ++ Error err));
                  calls := pulled; written := log0 |}
      | None =>
          match freePort h with
          | inr err => Some {| result := inr err; calls := pulled; written := log0 |}
          | inl hostPort =>
              let create := (pulled ++ [CallCreate imageTag hostPort])%list in
              match created h with
              | inr err =>
                  Some {| result := inr (errorString
                                     ("Failed to create Docker container for image "
                                      ++ imageTag ++ ": " ++ Error err));
                          calls := create; written := log0 |}
              | inl id =>
                  let start := (create ++ [CallStart id])%list in
                  match started h with
                  | Some err =>
                      Some {| result := inr (errorString
                                         ("Failed to start Docker container for image "
                                          ++ imageTag ++ ": " ++ Error err));
                              calls := start; written := log0 |}
                  | None =>
                      let log1 :=
                        (log0 ++ [LInfo "Waiting for model container to become accessible"])%list in
                      match waitForContainerReady StartupTimeout (observed h) with
                      | None => None
                      | Some (Some err) =>
                          Some {| result := inr err;
                                  calls := (start ++ [CallLogs id])%list;
                                  written := (log1 ++ [writeContainerLogs (against h)])%list |}
                      | Some None =>
                          Some {| result := inl {| containerID := id; port := hostPort |};
                                  calls := start;
                                  written :=
                                    (log1 ++ [LInfo "Got successful ping response from container"])%list |}
                      end
                  end
              end
          end
      end
  end.
End Deploying.

(** [Undeploy]: [stopped] is the error of [ContainerStop]. *)
Definition Undeploy (d : LocalDockerDeployment) (stopped : option error)
  : option error * list EngineCall :=
  (match stopped with
   | Some err => Some (errorString ("Failed to stop Docker container " ++ containerID d
                                    ++ ": " ++ Error err))
   | None => None
   end,
   [CallStop (containerID d)]).

Section Helping.
(** [model.RunArgument] is declared in package [model]; the decoding of
    the JSON body into a [HelpResponse] is [encoding/json]'s, given by its
    result on what reading the body yields. *)
Variable RunArgument : Type.

Record HelpResponse : Type := { Arguments : gmap string RunArgument }.

Variable decodeHelp : string * option error -> HelpResponse + error.

(** [Help(logWriter)]: what it returns and what it wrote to the logger. *)
Definition Help (w : World) (d : LocalDockerDeployment)
  : (HelpResponse + error) * list LogLine :=
  let url := "http://localhost:" ++ itoa (port d) ++ "/help" in
  match roundTrip w {| Method := "GET"; URL := url; Body := [] |} with
  | inr err =>
      (inr (errorString ("Failed to GET /help: " ++ Error err)), [writeContainerLogs w])
  | inl resp =>
      if negb (StatusCode resp =? StatusOK) then
        (inr (errorString ("/help call returned status " ++ itoa (StatusCode resp))),
         [writeContainerLogs w])
      else
        match decodeHelp (ResponseBody resp) with
        | inr err =>
            (inr (errorString ("Failed to parse /help body: " ++ Error err)),
             [writeContainerLogs w])
        | inl help => (inl help, [])
        end
  end.
End Helping.

End serving.

(* ===================================================================== *)
(** * Concrete builds, containers and responses                           *)
(* ===================================================================== *)

Module examples.
Import docker.

(** A build that fails in its install section. *)
Definition failedBuild : Process :=
  {| pipeErr := None; startErr := None;
     waitErr := Some (ExitError "exit status 1" "");
     stdoutLines := ["RUN __section__ install"; "log1"; "pip: no such package"] |}.

(** A build that exits cleanly and whose output has no success marker. *)
Definition cleanBuild : Process :=
  {| pipeErr := None; startErr := None; waitErr := None;
     stdoutLines := ["RUN __section__ install"; "log1"; "done"] |}.

(** A clean build in which pip builds a wheel before the image is built. *)
Definition pipBuild : Process :=
  {| pipeErr := None; startErr := None; waitErr := None;
     stdoutLines := ["RUN __section__ install"; "Successfully built numpy";
                     "Successfully built 4f5a6b7c8d9e"] |}.

(** A build that fails after pip has built a wheel. *)
Definition failedPipBuild : Process :=
  {| pipeErr := None; startErr := None;
     waitErr := Some (ExitError "exit status 1" "");
     stdoutLines := ["RUN __section__ install"; "Successfully built numpy";
                     "error: no space left on device"] |}.

(** A build whose process cannot be started. *)
Definition unstartedBuild : Process :=
  {| pipeErr := None;
     startErr := Some (errorString "exec: docker: executable file not found in $PATH");
     waitErr := None;
     stdoutLines := [] |}.

(** Five minutes, in nanoseconds. *)
Definition fiveMinutes : Z := 300000000000.

Definition running (at_ : Z) : serving.Poll :=
  {| serving.elapsed := at_;
     serving.inspect := inr (Some "running");
     serving.ping := inl (errorString "connection refused") |}.

Definition exited (at_ : Z) : serving.Poll :=
  {| serving.elapsed := at_;
     serving.inspect := inr (Some "exited");
     serving.ping := inl (errorString "connection refused") |}.

(** A response with a setup time and a run time that is not a number. *)
Definition timedResponse : serving.Response :=
  {| serving.StatusCode := 200;
     serving.Header :=
       {[ "Content-Type" := ["image/png; charset=binary"];
          "X-Setup-Time" := ["1.5"];
          "X-Run-Time" := ["not-a-number"] ]};
     serving.ResponseBody := ("PNG", None) |}.

(** A world with a file at [/tmp/x], a directory at [/tmp] ([os.Open]
    opens a directory, reading it fails) and nothing else, and a
    container that answers every request with [timedResponse]. *)
Definition world : serving.World :=
  {| serving.fs := fun path =>
       if String.eqb path "/tmp/x" then serving.Opens "pixels" None None
       else if String.eqb path "/tmp"
            then serving.Opens "" (Some (errorString "read /tmp: is a directory")) None
            else serving.CannotOpen
                   (errorString ("open " ++ path ++ ": no such file or directory"));
     serving.roundTrip := fun _ => inl timedResponse;
     serving.containerLogs := inl "" |}.

Definition deployment : serving.LocalDockerDeployment :=
  {| serving.containerID := "c0ffee"; serving.port := 5000 |}.

Definition fileField (path : string) : serving.ExampleValue :=
  {| serving.String := None; serving.File := Some path |}.

Definition textField (text : string) : serving.ExampleValue :=
  {| serving.String := Some text; serving.File := None |}.

(** What [RunInference] returns in [world] for a file at [/tmp/x]. *)
Definition inferred : serving.Result :=
  {| serving.ResultValues :=
       {[ "output" := {| serving.Buffer := "PNG"; serving.MimeType := "image/png" |} ]};
     serving.SetupTime := S754_finite false 6755399441055744 (-52);
     serving.RunTime := S754_zero false |}.

Definition inferredEffects : serving.Effects :=
  {| serving.openFiles := [];
     serving.logs := [];
     serving.console := [serving.RunTimeUnparsed "not-a-number" strconv.ErrSyntax] |}.

(** A response without timing headers. *)
Definition plainResponse : serving.Response :=
  {| serving.StatusCode := 200;
     serving.Header := {[ "Content-Type" := ["text/plain"] ]};
     serving.ResponseBody := ("hello", None) |}.

(** A world like [world] whose container answers with [resp]. *)
Definition worldAnswering (resp : serving.Response + error) : serving.World :=
  {| serving.fs := serving.fs world;
     serving.roundTrip := fun _ => resp;
     serving.containerLogs := inl "Traceback (most recent call last)" |}.

(** A container that answers the liveness request at its third poll. *)
Definition ready (at_ : Z) : serving.Poll :=
  {| serving.elapsed := at_;
     serving.inspect := inr (Some "running");
     serving.ping := inr 200 |}.

Definition uninspectable (at_ : Z) : serving.Poll :=
  {| serving.elapsed := at_;
     serving.inspect := inl (errorString "No such container: c0ffee");
     serving.ping := inr 200 |}.

(** A host on which the image must be pulled and the container comes up
    (or, with [crashing], exits). *)
Definition hostObserving (polls : list serving.Poll) : serving.Host :=
  {| serving.imagePresent := false;
     serving.pullResult := None;
     serving.freePort := inl 5001;
     serving.created := inl "c0ffee";
     serving.started := None;
     serving.observed := polls;
     serving.against := worldAnswering (inl plainResponse) |}.

Definition cpuArtifact : serving.Artifact :=
  {| serving.Target := "docker-cpu"; serving.URI := "r8.im/model:4f5a6b7c8d9e" |}.

(** A decoder of help bodies that accepts the body [{}] only. *)
Definition decodeEmptyHelp (body : string * option error)
  : serving.HelpResponse string + error :=
  match body with
  | (text, None) =>
      if String.eqb text "{}" then inl {| serving.Arguments := ∅ |}
      else inr (errorString "invalid character")
  | (_, Some err) => inr err
  end.

(** A line of [bufio.MaxScanTokenSize] bytes. *)
Definition longLine : string := replicate (Z.to_nat MaxScanTokenSize) "x".

(** A build whose output has a line of 64 KiB before its section marker
    and its success line, read to its end. *)
Definition longLineBuild : Pipe :=
  {| written := unlines ["first"; longLine; "RUN __section__ install";
                         "Successfully built 4f5a6b7c8d9e"];
     failsAfter := None |}.

(** A build with Windows line ends, read to its end. *)
Definition shortLineBuild : Pipe :=
  {| written := unlines ["Step 1/2"; "RUN __section__ install" ++ String "013" "";
                         "Collecting numpy"; "Successfully built 4f5a6b7c8d9e"];
     failsAfter := None |}.

(** A build whose pipe fails in the middle of the third line. *)
Definition brokenPipeBuild : Pipe :=
  {| written := unlines ["RUN __section__ install";
                         "Successfully built 4f5a6b7c8d9e"; "Removing intermediate container"];
     failsAfter := Some 70%nat |}.

End examples.

(* ===================================================================== *)
(** * Properties: package strings                                         *)
(* ===================================================================== *)

Module strings_facts.
Import strings.

Lemma HasPrefix_app (p s : string) : HasPrefix (p ++ s) p = true.
Proof.
  induction p as [|c p IH]; simpl; [reflexivity|].
  rewrite Ascii.eqb_refl. exact IH.
Qed.

Lemma drop_app (p s : string) : drop (String.length p) (p ++ s) = s.
Proof. induction p as [|c p IH]; simpl; auto. Qed.

Lemma TrimPrefix_app (p s : string) : TrimPrefix (p ++ s) p = s.
Proof. unfold TrimPrefix. rewrite HasPrefix_app. apply drop_app. Qed.

Lemma HasPrefix_inv (s p : string) :
  HasPrefix s p = true -> s = p ++ drop (String.length p) s.
Proof.
  revert s. induction p as [|c p IH]; intros s H; simpl in *; [reflexivity|].
  destruct s as [|d s]; [discriminate|].
  destruct (Ascii.eqb d c) eqn:E; [|discriminate].
  apply Ascii.eqb_eq in E. subst d. simpl. f_equal. apply IH, H.
Qed.

Lemma append_assoc (a b c : string) : (a ++ b) ++ c = a ++ (b ++ c).
Proof. induction a as [|x a IH]; simpl; [reflexivity|]. now rewrite IH. Qed.

Lemma append_nil_r (a : string) : a ++ "" = a.
Proof. induction a as [|x a IH]; simpl; [reflexivity|]. now rewrite IH. Qed.

(** [Cut] finds an occurrence: the string is the text before it, the
    separator and the text after it. *)
Lemma Cut_Some (s sep before after : string) :
  Cut s sep = Some (before, after) -> s = before ++ sep ++ after.
Proof.
  revert before after. induction s as [|c s IH]; intros before after.
  - simpl. destruct (HasPrefix "" sep) eqn:E; [|discriminate].
    intros [= <- <-]. simpl. apply HasPrefix_inv in E. exact E.
  - cbn [Cut]. destruct (HasPrefix (String c s) sep) eqn:E.
    + intros [= <- <-]. simpl. apply HasPrefix_inv in E. exact E.
    + destruct (Cut s sep) as [[b a]|] eqn:E2; [|discriminate].
      intros [= <- <-]. simpl. f_equal. apply IH. reflexivity.
Qed.

Lemma Cut_unfold (s sep : string) :
  Cut s sep =
  if HasPrefix s sep then Some (EmptyString, drop (String.length sep) s)
  else match s with
       | EmptyString => None
       | String c cs =>
           match Cut cs sep with
           | Some (before, after) => Some (String c before, after)
           | None => None
           end
       end.
Proof. destruct s; reflexivity. Qed.

(** A string that has [sub] inside contains it. *)
Lemma Contains_app (a sub b : string) : Contains (a ++ sub ++ b) sub = true.
Proof.
  unfold Contains. induction a as [|c a IH].
  - simpl. rewrite Cut_unfold, HasPrefix_app. reflexivity.
  - rewrite Cut_unfold. destruct (HasPrefix (String c a ++ sub ++ b) sub); [reflexivity|].
    simpl. destruct (Cut (a ++ sub ++ b) sub) as [[x y]|]; [reflexivity|discriminate].
Qed.


Lemma take_drop (n : nat) (s : string) : s = take n s ++ drop n s.
Proof.
  revert s. induction n as [|n IH]; intros [|c s]; simpl; try reflexivity.
  f_equal. apply IH.
Qed.

Lemma length_drop (n : nat) (s : string) :
  String.length (drop n s) = (String.length s - n)%nat.
Proof. revert s. induction n as [|n IH]; intros [|c s]; simpl; auto; lia. Qed.

Lemma length_append (a b : string) :
  String.length (a ++ b) = (String.length a + String.length b)%nat.
Proof. induction a as [|c a IH]; simpl; [reflexivity|]. now rewrite IH. Qed.

Lemma rev_append (a b : string) : rev (a ++ b) = rev b ++ rev a.
Proof.
  induction a as [|c a IH]; simpl.
  - now rewrite append_nil_r.
  - now rewrite IH, append_assoc.
Qed.

Lemma rev_involutive (s : string) : rev (rev s) = s.
Proof.
  induction s as [|c s IH]; simpl; [reflexivity|].
  rewrite rev_append, IH. reflexivity.
Qed.

Lemma length_rev (s : string) : String.length (rev s) = String.length s.
Proof.
  induction s as [|c s IH]; simpl; [reflexivity|].
  rewrite length_append, IH. simpl. lia.
Qed.

Lemma HasPrefix_append (t r p : string) :
  HasPrefix t p = true -> HasPrefix (t ++ r) p = true.
Proof.
  revert t. induction p as [|c p IH]; intros t H; simpl in *; [reflexivity|].
  destruct t as [|d t]; [discriminate|]. simpl.
  destruct (Ascii.eqb d c); [apply IH, H|discriminate].
Qed.

Lemma take_app (p x : string) : take (String.length p) (p ++ x) = p.
Proof. induction p as [|c p IH]; simpl; [now destruct x|]. now rewrite IH. Qed.

Lemma Spaces_app (a b : string) : Spaces a -> Spaces b -> Spaces (a ++ b).
Proof.
  induction 1 as [|c a Hc _ IH|enc a He _ IH]; intros Hb; simpl.
  - exact Hb.
  - apply Spaces_ascii; [exact Hc|apply IH, Hb].
  - rewrite append_assoc. apply Spaces_rune; [exact He|apply IH, Hb].
Qed.

Lemma Spaces_one (c : ascii) : asciiSpace c = true -> Spaces (String c "").
Proof. intros H. apply Spaces_ascii; [exact H|constructor]. Qed.

Lemma Spaces_enc (enc : string) : In enc unicodeSpaces -> Spaces enc.
Proof.
  intros H. rewrite <- (append_nil_r enc). apply Spaces_rune; [exact H|constructor].
Qed.

(** The rune [spaceWidth] measures is a white-space rune. *)
Lemma spaceWidth_take (s : string) (w : nat) :
  spaceWidth s = S w -> Spaces (take (S w) s).
Proof.
  destruct s as [|c t]; [discriminate|]. cbn [spaceWidth].
  destruct (asciiSpace c) eqn:Ec.
  - intros [= <-]. apply Spaces_one, Ec.
  - destruct (List.find (HasPrefix (String c t)) unicodeSpaces) as [enc|] eqn:F; [|discriminate].
    apply find_some in F. destruct F as [Hin Hp]. intros <-.
    apply HasPrefix_inv in Hp. rewrite Hp, take_app. apply Spaces_enc, Hin.
Qed.

Lemma spaceWidthLast_take (r : string) (w : nat) :
  spaceWidthLast r = S w -> Spaces (rev (take (S w) r)).
Proof.
  destruct r as [|c t]; [discriminate|]. cbn [spaceWidthLast].
  destruct (asciiSpace c) eqn:Ec.
  - intros [= <-]. apply Spaces_one, Ec.
  - destruct (List.find (fun enc => HasPrefix (String c t) (rev enc)) unicodeSpaces)
      as [enc|] eqn:F; [|discriminate].
    apply find_some in F. destruct F as [Hin Hp]. intros <-.
    apply HasPrefix_inv in Hp. rewrite Hp, <- (length_rev enc), take_app, rev_involutive.
    apply Spaces_enc, Hin.
Qed.

(** What the two loops of [TrimSpace] drop and keep. *)
Lemma TrimLeftSpace_fuel_suffix fuel s :
  exists l, s = l ++ TrimLeftSpace_fuel fuel s /\ Spaces l.
Proof.
  revert s. induction fuel as [|k IH]; intros s; cbn [TrimLeftSpace_fuel].
  - exists "". split; [reflexivity|constructor].
  - destruct (spaceWidth s) as [|w] eqn:E; [exists ""; split; [reflexivity|constructor]|].
    destruct (IH (drop (S w) s)) as [l [Hl Hs]].
    exists (take (S w) s ++ l). split.
    + rewrite append_assoc, <- Hl. apply take_drop.
    + apply Spaces_app; [apply spaceWidth_take, E|exact Hs].
Qed.

Lemma TrimLeftSpace_fuel_done fuel s :
  (String.length s <= fuel)%nat -> spaceWidth (TrimLeftSpace_fuel fuel s) = O.
Proof.
  revert s. induction fuel as [|k IH]; intros s H; cbn [TrimLeftSpace_fuel].
  - destruct s; [reflexivity|simpl in H; lia].
  - destruct (spaceWidth s) as [|w] eqn:E; [exact E|].
    apply IH. rewrite length_drop. destruct s; [discriminate|]. simpl in *. lia.
Qed.

Lemma TrimRightSpace_fuel_suffix fuel r :
  exists l, r = l ++ TrimRightSpace_fuel fuel r /\ Spaces (rev l).
Proof.
  revert r. induction fuel as [|k IH]; intros r; cbn [TrimRightSpace_fuel].
  - exists "". split; [reflexivity|constructor].
  - destruct (spaceWidthLast r) as [|w] eqn:E; [exists ""; split; [reflexivity|constructor]|].
    destruct (IH (drop (S w) r)) as [l [Hl Hs]].
    exists (take (S w) r ++ l). split.
    + rewrite append_assoc, <- Hl. apply take_drop.
    + rewrite rev_append. apply Spaces_app; [exact Hs|apply spaceWidthLast_take, E].
Qed.

Lemma TrimRightSpace_fuel_done fuel r :
  (String.length r <= fuel)%nat -> spaceWidthLast (TrimRightSpace_fuel fuel r) = O.
Proof.
  revert r. induction fuel as [|k IH]; intros r H; cbn [TrimRightSpace_fuel].
  - destruct r; [reflexivity|simpl in H; lia].
  - destruct (spaceWidthLast r) as [|w] eqn:E; [exact E|].
    apply IH. rewrite length_drop. destruct r; [discriminate|]. simpl in *. lia.
Qed.

Lemma unicodeSpaces_nonempty :
  Forall (fun enc => String.length enc <> O) unicodeSpaces.
Proof. repeat constructor; discriminate. Qed.

(** A string that does not start with white space has no prefix that
    does. *)
Lemma spaceWidth_prefix (t r : string) :
  spaceWidth (t ++ r) = O -> spaceWidth t = O.
Proof.
  destruct t as [|c t]; [reflexivity|]. cbn [append spaceWidth].
  destruct (asciiSpace c); [discriminate|].
  destruct (List.find (HasPrefix (String c t)) unicodeSpaces) as [enc|] eqn:F; [|reflexivity].
  apply find_some in F. destruct F as [Hin Hp].
  apply (HasPrefix_append _ r) in Hp. cbn [append] in Hp.
  destruct (List.find (HasPrefix (String c (t ++ r))) unicodeSpaces) as [enc'|] eqn:F'.
  - apply find_some in F'. destruct F' as [Hin' _].
    pose proof (proj1 (List.Forall_forall _ _) unicodeSpaces_nonempty enc' Hin').
    congruence.
  - pose proof (find_none _ _ F' enc Hin) as Hn. cbv beta in Hn. congruence.
Qed.

(** [TrimSpace s] is [s] without the white space it starts with and the
    white space it ends with: what is left neither starts nor ends with
    white space. *)
Lemma TrimSpace_spec (s : string) :
  (exists l r, s = l ++ TrimSpace s ++ r /\ Spaces l /\ Spaces r) /\
  spaceWidth (TrimSpace s) = O /\
  spaceWidthLast (rev (TrimSpace s)) = O.
Proof.
  unfold TrimSpace, TrimRightSpace, TrimLeftSpace.
  destruct (TrimLeftSpace_fuel_suffix (String.length s) s) as [l [Hl Sl]].
  set (s1 := TrimLeftSpace_fuel (String.length s) s) in *.
  destruct (TrimRightSpace_fuel_suffix (String.length s1) (rev s1)) as [r [Hr Sr]].
  set (x := TrimRightSpace_fuel (String.length s1) (rev s1)) in *.
  assert (Hs1 : s1 = rev x ++ rev r).
  { rewrite <- rev_append, <- Hr. now rewrite rev_involutive. }
  split; [|split].
  - exists l, (rev r). rewrite <- Hs1. auto.
  - apply (spaceWidth_prefix _ (rev r)). rewrite <- Hs1.
    apply TrimLeftSpace_fuel_done. lia.
  - rewrite rev_involutive. apply TrimRightSpace_fuel_done. rewrite length_rev. lia.
Qed.

End strings_facts.

(* ===================================================================== *)
(** * Properties: the build log scanner                                   *)
(* ===================================================================== *)

Module scanner_facts.
Import strings strings_facts docker.

Section Scanner.
Variable SectionPrefix : string.
Variable SectionStartingBuild : string.

Local Abbreviation scanLine := (docker.scanLine SectionPrefix).
Local Abbreviation scanLoop := (docker.scanLoop SectionPrefix).
Local Abbreviation scanner := (docker.scanner SectionPrefix SectionStartingBuild).
Local Abbreviation lastLogs := (docker.lastLogs SectionPrefix SectionStartingBuild).
Local Abbreviation isMarker := (docker.isMarker SectionPrefix).
Local Abbreviation countMarkers := (docker.countMarkers SectionPrefix).
Local Abbreviation afterNthMarker := (docker.afterNthMarker SectionPrefix).

Lemma tagsOf_app (a b : list Action) : tagsOf (a ++ b) = (tagsOf a ++ tagsOf b)%list.
Proof. unfold tagsOf. apply flat_map_app. Qed.

Lemma scanLoop_cons st line rest :
  scanLoop st (line :: rest) =
  (fst (scanLoop (fst (scanLine st line)) rest),
   (snd (scanLine st line) ++ snd (scanLoop (fst (scanLine st line)) rest))%list).
Proof.
  cbn [docker.scanLoop]. destruct (scanLine st line) as [st1 a1].
  cbn [fst snd]. destruct (scanLoop st1 rest) as [st2 a2]. reflexivity.
Qed.

Lemma scanLoop_app st l1 l2 :
  scanLoop st (l1 ++ l2) =
  (fst (scanLoop (fst (scanLoop st l1)) l2),
   (snd (scanLoop st l1) ++ snd (scanLoop (fst (scanLoop st l1)) l2))%list).
Proof.
  revert st. induction l1 as [|line l1 IH]; intros st.
  - simpl. destruct (scanLoop st l2); reflexivity.
  - rewrite <- app_comm_cons, !scanLoop_cons, IH. cbn [fst snd].
    now rewrite app_assoc.
Qed.

(** The tags sent for a line do not depend on the goroutine's state. *)
Lemma tagsOf_scanLine st line : tagsOf (snd (scanLine st line)) = lineTags line.
Proof.
  unfold docker.scanLine, lineTags.
  destruct (Contains line (sectionPrefix SectionPrefix));
    destruct (HasPrefix line successPrefix); destruct (buildkitMatch line); reflexivity.
Qed.

Lemma tagsOf_scanLoop st lines : tagsOf (snd (scanLoop st lines)) = flat_map lineTags lines.
Proof.
  revert st. induction lines as [|line rest IH]; intros st; [reflexivity|].
  rewrite scanLoop_cons. cbn [snd flat_map].
  now rewrite tagsOf_app, tagsOf_scanLine, IH.
Qed.

Lemma tagsOf_scanner lines : tagsOf (scanner lines) = flat_map lineTags lines.
Proof.
  unfold docker.scanner.
  pose proof (tagsOf_scanLoop (scanStart SectionStartingBuild) lines) as H.
  destruct (scanLoop (scanStart SectionStartingBuild) lines) as [st acts].
  cbn [snd] in H. rewrite tagsOf_app, H. simpl. apply app_nil_r.
Qed.

Lemma lineTags_legacy rest : lineTags (successPrefix ++ rest) = [TrimSpace rest].
Proof.
  unfold lineTags. rewrite HasPrefix_app, TrimPrefix_app. reflexivity.
Qed.

Lemma afterNthMarker_0 lines : afterNthMarker 0 lines = lines.
Proof. destruct lines; reflexivity. Qed.

(** The window after a stream, from any state of the goroutine. *)
Lemma window_scanLoop st lines :
  currentLogLines (fst (scanLoop st lines)) =
  match countMarkers lines with
  | O => (currentLogLines st ++ lines)%list
  | S _ => afterNthMarker (countMarkers lines) lines
  end.
Proof.
  revert st. induction lines as [|line rest IH]; intros st.
  - simpl. now rewrite app_nil_r.
  - rewrite scanLoop_cons. cbn [fst]. rewrite IH.
    cbn [docker.countMarkers].
    assert (Hst : currentLogLines (fst (scanLine st line)) =
                  if isMarker line then [] else (currentLogLines st ++ [line])%list).
    { unfold docker.scanLine, docker.isMarker.
      destruct (Contains line (sectionPrefix SectionPrefix)); reflexivity. }
    rewrite Hst. destruct (isMarker line) eqn:E.
    + cbn [docker.afterNthMarker]. rewrite E.
      destruct (countMarkers rest); [|reflexivity].
      now rewrite afterNthMarker_0.
    + destruct (countMarkers rest) eqn:Ek.
      * now rewrite <- app_assoc.
      * cbn [docker.afterNthMarker]. now rewrite E.
Qed.

Lemma lastLogs_afterNthMarker lines :
  lastLogs lines = afterNthMarker (countMarkers lines) lines.
Proof.
  unfold docker.lastLogs. rewrite window_scanLoop.
  destruct (countMarkers lines); [|reflexivity].
  now rewrite afterNthMarker_0.
Qed.

Lemma countMarkers_app l1 l2 :
  countMarkers (l1 ++ l2) = (countMarkers l1 + countMarkers l2)%nat.
Proof.
  induction l1 as [|x l1 IH]; [reflexivity|]. simpl.
  destruct (isMarker x); simpl; now rewrite IH.
Qed.

(** The lines after the last marker: a suffix of the stream, with no
    marker in it, that starts right after a marker when there is one. *)
Lemma afterNthMarker_last lines :
  let window := afterNthMarker (countMarkers lines) lines in
  Forall (fun l => isMarker l = false) window /\
  ((countMarkers lines = O /\ window = lines) \/
   (exists before marker,
       isMarker marker = true /\ lines = (before ++ marker :: window)%list)).
Proof.
  induction lines as [|line rest IH]; cbn zeta in *.
  - split; [constructor|]. left. split; reflexivity.
  - destruct IH as [IHf IHd]. cbn [docker.countMarkers].
    destruct (isMarker line) eqn:E.
    + cbn [docker.afterNthMarker]. rewrite E. split; [exact IHf|]. right.
      destruct IHd as [[H0 Hw]|(before & marker & Hm & Hl)].
      * exists [], line. split; [exact E|]. simpl. now rewrite Hw.
      * exists (line :: before), marker. split; [exact Hm|].
        simpl. now rewrite <- Hl.
    + destruct IHd as [[H0 Hw]|(before & marker & Hm & Hl)].
      * rewrite H0 in *. rewrite afterNthMarker_0 in *. split.
        -- constructor; [exact E|exact IHf].
        -- left. split; reflexivity.
      * destruct (countMarkers rest) as [|k] eqn:Ek.
        -- exfalso. rewrite Hl, countMarkers_app in Ek. simpl in Ek.
           rewrite Hm in Ek. lia.
        -- cbn [docker.afterNthMarker]. rewrite E. split; [exact IHf|]. right.
           exists (line :: before), marker. split; [exact Hm|].
           simpl. now rewrite <- Hl.
Qed.

(** The loop never sends on [lastLogsChan]. *)
Lemma scanLoop_no_lastLogs st lines :
  Forall (fun a => isSendLastLogs a = false) (snd (scanLoop st lines)).
Proof.
  revert st. induction lines as [|line rest IH]; intros st; [constructor|].
  rewrite scanLoop_cons. cbn [snd]. apply Forall_app. split; [|apply IH].
  unfold docker.scanLine.
  destruct (Contains line (sectionPrefix SectionPrefix));
    destruct (HasPrefix line successPrefix); destruct (buildkitMatch line);
    cbn [snd app]; repeat constructor.
Qed.

(** Actions that send nothing are the goroutine's log lines. *)
Lemma only_logs (acts : list Action) :
  Forall (fun a => isSendLastLogs a = false) acts ->
  tagsOf acts = [] ->
  acts = List.map ALog (logsOf acts).
Proof.
  induction 1 as [|a acts Ha _ IH]; intros Ht; [reflexivity|].
  destruct a as [l|t|w]; simpl in *; try discriminate.
  f_equal. apply IH, Ht.
Qed.

End Scanner.
End scanner_facts.

(* ===================================================================== *)
(** * Properties: [build] and the scanning goroutine                      *)
(* ===================================================================== *)

Module build_facts.
Import strings strings_facts docker scanner_facts.

Section Build.
Variable p : Process.

Lemma In_steps s s' :
  In s' (steps p s) <-> stepBuild p s = Some s' \/ stepGoroutine s = Some s'.
Proof.
  unfold steps. rewrite in_app_iff.
  destruct (stepBuild p s), (stepGoroutine s); simpl; intuition congruence.
Qed.

(** A state one schedule reaches is reached from every state on the way. *)
Lemma reachable_trans s1 s2 s3 :
  reachable p s1 s2 -> reachable p s2 s3 -> reachable p s1 s3.
Proof.
  induction 1 as [|s a b Hin _ IH]; intros H; [exact H|].
  eapply reachStep; [exact Hin|]. apply IH, H.
Qed.

Lemma reachable_run fuel s : reachable p s (run p fuel s).
Proof.
  revert s. induction fuel as [|k IH]; intros s; cbn [run]; [constructor|].
  destruct (steps p s) as [|s' rest] eqn:E; [constructor|].
  destruct (returned s); [constructor|].
  eapply reachStep; [|apply IH]. rewrite E. now left.
Qed.

(** Once [build] has returned it stays returned, whatever the goroutine
    still does. *)
Lemma returned_stable s s' :
  reachable p s s' -> returned s = true -> returned s' = true.
Proof.
  induction 1 as [|s s1 s2 Hin _ IH]; intros Hret; [exact Hret|].
  apply IH. apply In_steps in Hin. unfold returned in *.
  destruct Hin as [Hin|Hin].
  - unfold stepBuild in Hin. destruct (pc s); discriminate.
  - unfold stepGoroutine in Hin.
    destruct (goroutine s) as [|[l|t|w] rest]; try discriminate.
    injection Hin as <-. exact Hret.
Qed.

(** If [build] returns on every schedule, no schedule leads to a state
    where nothing can move and [build] has not returned. *)
Lemma alwaysReaches_not_stuck P s :
  alwaysReaches p P s ->
  forall s', reachable p s s' -> steps p s' = [] -> returned s' = true.
Proof.
  intros H s' Hr. revert H. induction Hr as [s|s s1 s2 Hin Hr IH]; intros H Hs.
  - destruct H as [s Hret _|s _ Hne _]; [exact Hret|contradiction].
  - destruct H as [s Hret _|s _ _ Hall].
    + eapply returned_stable; [|exact Hret].
      eapply reachStep; [exact Hin|exact Hr].
    + apply IH; [apply Hall, Hin|exact Hs].
Qed.

(** ** A failed build without a tag *)

(** The goroutine has only log lines left to write before it sends the
    window [w], and [build] is at [<-lastLogsChan]. *)
Lemma drain_at_recv e (ls : list LogLine) w out :
  alwaysReaches p
    (fun s => pc s = pcReturn "" (Some e) /\
              logged s = (out ++ ls ++ List.map LInfo w)%list)
    {| pc := pcRecvLastLogs e;
       goroutine := (List.map ALog ls ++ [ASendLastLogs w])%list;
       logged := out |}.
Proof.
  revert out. induction ls as [|l ls IH]; intros out.
  - apply reachesLater; [reflexivity|discriminate|].
    intros s' [<-|[]]. apply reachesNow; [reflexivity|]. split; reflexivity.
  - apply reachesLater; [reflexivity|discriminate|].
    intros s' [<-|[]]. specialize (IH (out ++ [l])%list).
    rewrite <- app_assoc in IH. exact IH.
Qed.

Lemma drain_at_wait e (ls : list LogLine) w out :
  waitErr p = Some e ->
  alwaysReaches p
    (fun s => pc s = pcReturn "" (Some e) /\
              logged s = (out ++ ls ++ List.map LInfo w)%list)
    {| pc := pcWait;
       goroutine := (List.map ALog ls ++ [ASendLastLogs w])%list;
       logged := out |}.
Proof.
  intros Hw. revert out. induction ls as [|l ls IH]; intros out.
  - apply reachesLater; [reflexivity|discriminate|].
    unfold steps, stepBuild. cbn. rewrite Hw.
    intros s' [<-|[]]. apply (drain_at_recv e [] w out).
  - apply reachesLater; [reflexivity|discriminate|].
    unfold steps, stepBuild. cbn. rewrite Hw.
    intros s' [<-|[<-|[]]].
    + apply (drain_at_recv e (l :: ls) w out).
    + specialize (IH (out ++ [l])%list). rewrite <- app_assoc in IH. exact IH.
Qed.

Lemma drain_at_start e (ls : list LogLine) w out :
  startErr p = None -> waitErr p = Some e ->
  alwaysReaches p
    (fun s => pc s = pcReturn "" (Some e) /\
              logged s = (out ++ ls ++ List.map LInfo w)%list)
    {| pc := pcStart;
       goroutine := (List.map ALog ls ++ [ASendLastLogs w])%list;
       logged := out |}.
Proof.
  intros Hs Hw. revert out. induction ls as [|l ls IH]; intros out.
  - apply reachesLater; [reflexivity|discriminate|].
    unfold steps, stepBuild. cbn. rewrite Hs.
    intros s' [<-|[]]. apply (drain_at_wait e [] w out Hw).
  - apply reachesLater; [reflexivity|discriminate|].
    unfold steps, stepBuild. cbn. rewrite Hs.
    intros s' [<-|[<-|[]]].
    + apply (drain_at_wait e (l :: ls) w out Hw).
    + specialize (IH (out ++ [l])%list). rewrite <- app_assoc in IH. exact IH.
Qed.

(** ** A clean exit without a tag *)

(** While no tag is sent, [build] stays before its return. *)
Lemma no_tag_invariant s s' :
  startErr p = None -> waitErr p = None ->
  reachable p s s' ->
  returned s = false ->
  (forall e, pc s <> pcRecvLastLogs e) ->
  (forall t, pc s <> pcLogTag t) ->
  tagsOf (goroutine s) = [] ->
  returned s' = false.
Proof.
  intros Hs Hw. induction 1 as [|s s1 s2 Hin _ IH]; intros Hret Hl Ht Htags; [exact Hret|].
  apply In_steps in Hin. destruct Hin as [Hin|Hin].
  - unfold stepBuild in Hin. destruct (pc s) eqn:Epc; try discriminate.
    + rewrite Hs in Hin. injection Hin as <-. apply IH; cbn; auto; discriminate.
    + rewrite Hw in Hin. injection Hin as <-. apply IH; cbn; auto; discriminate.
    + exfalso. eapply Hl. reflexivity.
    + destruct (goroutine s) as [|[l|t|w] rest]; try discriminate.
    + exfalso. eapply Ht. reflexivity.
  - unfold stepGoroutine in Hin.
    destruct (goroutine s) as [|[l|t|w] rest]; try discriminate.
    injection Hin as <-. apply IH; cbn; auto.
Qed.

End Build.
End build_facts.

(* ===================================================================== *)
(** * The build log classifier and the image publisher                    *)
(* ===================================================================== *)

Module publisher.
Import strings strings_facts docker scanner_facts build_facts examples.

(** On the lines the scanner yields, N of them section markers, the
    goroutine's last action is to send the trailing log window, and it
    sends it once; the window is the lines after the N-th marker (all of
    them when N = 0): no marker line is in it, and it is the part of the
    lines that follows a marker line, in the order of arrival.  The window
    is empty right after every marker line. *)
Lemma window_of_scanned_lines
    (SectionPrefix SectionStartingBuild : string) (lines : list string) :
  let N := countMarkers SectionPrefix lines in
  let window := afterNthMarker SectionPrefix N lines in
  (exists acts,
      scanner SectionPrefix SectionStartingBuild lines = (acts ++ [ASendLastLogs window])%list /\
      Forall (fun a => isSendLastLogs a = false) acts) /\
  Forall (fun l => isMarker SectionPrefix l = false) window /\
  ((N = O /\ window = lines) \/
   (exists before marker,
       isMarker SectionPrefix marker = true /\
       lines = (before ++ marker :: window)%list)) /\
  (forall before marker,
      isMarker SectionPrefix marker = true ->
      lastLogs SectionPrefix SectionStartingBuild (before ++ [marker]) = []).
Proof.
  cbn zeta. split; [|split; [|split]].
  - pose proof (lastLogs_afterNthMarker SectionPrefix SectionStartingBuild lines) as Hw.
    pose proof (scanLoop_no_lastLogs SectionPrefix (scanStart SectionStartingBuild) lines) as Hn.
    unfold docker.scanner, docker.lastLogs in *.
    destruct (scanLoop SectionPrefix (scanStart SectionStartingBuild) lines) as [st acts].
    cbn [fst snd] in *. exists acts. rewrite Hw. split; [reflexivity|exact Hn].
  - apply (afterNthMarker_last SectionPrefix lines).
  - apply (afterNthMarker_last SectionPrefix lines).
  - intros before marker Hm. unfold docker.lastLogs.
    rewrite scanLoop_app. cbn [fst]. rewrite scanLoop_cons. cbn [fst docker.scanLoop].
    unfold docker.scanLine. unfold docker.isMarker in Hm. rewrite Hm. reflexivity.
Qed.

(** A line the scanner yields that begins with "Successfully built "
    makes the goroutine send exactly one tag, the rest of the line with the
    white space around it removed, whatever the goroutine's section and
    window are then; the tags sent for the lines before and after it are
    unchanged.  The tag is the rest of the line without the white-space
    runes it starts and ends with, and itself neither starts nor ends with
    one. *)
Lemma legacy_tag_of_scanned_line
    (SectionPrefix SectionStartingBuild : string)
    (before : list string) (rest : string) (after : list string) :
  (forall st,
      tagsOf (snd (scanLine SectionPrefix st (successPrefix ++ rest))) = [TrimSpace rest]) /\
  tagsOf (scanner SectionPrefix SectionStartingBuild
            (before ++ (successPrefix ++ rest) :: after)) =
  (tagsOf (scanner SectionPrefix SectionStartingBuild before)
   ++ TrimSpace rest :: tagsOf (scanner SectionPrefix SectionStartingBuild after))%list /\
  (exists l r, rest = l ++ TrimSpace rest ++ r /\ Spaces l /\ Spaces r) /\
  spaceWidth (TrimSpace rest) = O /\
  spaceWidthLast (rev (TrimSpace rest)) = O.
Proof.
  split; [|split].
  - intros st. rewrite tagsOf_scanLine. apply lineTags_legacy.
  - rewrite !tagsOf_scanner, flat_map_app. cbn [flat_map].
    now rewrite lineTags_legacy.
  - apply TrimSpace_spec.
Qed.

(** C3, as the code has it.  When the build process was started, exits
    with a failure and its output has made the goroutine send no tag,
    [build] returns on every schedule: it receives the trailing log
    window, writes its lines to the logger after everything the goroutine
    wrote, and returns the failure of [cmd.Wait]. *)
Theorem failed_build_without_tag_returns
    (SectionPrefix SectionStartingBuild : string) (p : Process) (e : error) :
  pipeErr p = None ->
  startErr p = None ->
  waitErr p = Some e ->
  tagsOf (scanner SectionPrefix SectionStartingBuild (stdoutLines p)) = [] ->
  alwaysReaches p
    (fun s =>
       pc s = pcReturn "" (Some e) /\
       logged s =
         (logsOf (scanner SectionPrefix SectionStartingBuild (stdoutLines p))
          ++ List.map LInfo (lastLogs SectionPrefix SectionStartingBuild (stdoutLines p)))%list)
    (build SectionPrefix SectionStartingBuild p).
Proof.
  intros Hp Hs Hw Ht. unfold build, buildPipe. rewrite Hp.
  pose proof (scanLoop_no_lastLogs SectionPrefix (scanStart SectionStartingBuild)
                (stdoutLines p)) as Hn.
  unfold docker.scanner, docker.lastLogs in *.
  destruct (scanLoop SectionPrefix (scanStart SectionStartingBuild) (stdoutLines p))
    as [st acts].
  cbn [fst snd] in *.
  rewrite tagsOf_app in Ht. apply app_eq_nil in Ht. destruct Ht as [Ht _].
  assert (Hl : logsOf (acts ++ [ASendLastLogs (currentLogLines st)]) = logsOf acts).
  { unfold logsOf. rewrite flat_map_app. simpl. apply app_nil_r. }
  rewrite Hl. rewrite (only_logs acts Hn Ht) at 1.
  apply (drain_at_start p e (logsOf acts) (currentLogLines st) [] Hs Hw).
Qed.

(** The failed build of the examples returns its failure with the window
    logged. *)
Lemma failed_build_without_tag_returns_witness :
  alwaysReaches failedBuild
    (fun s =>
       pc s = pcReturn "" (Some (ExitError "exit status 1" "")) /\
       logged s =
         (logsOf (scanner "__section__ " "starting build" (stdoutLines failedBuild))
          ++ List.map LInfo (lastLogs "__section__ " "starting build" (stdoutLines failedBuild)))%list)
    (build "__section__ " "starting build" failedBuild).
Proof.
  exact (failed_build_without_tag_returns "__section__ " "starting build" failedBuild
           (ExitError "exit status 1" "") eq_refl eq_refl eq_refl eq_refl).
Defined.

(** When the process exits cleanly and no tag was sent, [build] never
    returns: it stays at [<-tagChan] while the goroutine stays at its send
    on [lastLogsChan]. *)
Lemma clean_exit_without_tag_never_returns
    (SectionPrefix SectionStartingBuild : string) (p : Process) (s : System) :
  pipeErr p = None ->
  startErr p = None ->
  waitErr p = None ->
  tagsOf (scanner SectionPrefix SectionStartingBuild (stdoutLines p)) = [] ->
  reachable p (build SectionPrefix SectionStartingBuild p) s ->
  returned s = false.
Proof.
  intros Hp Hs Hw Ht Hr. unfold build, buildPipe in Hr. rewrite Hp in Hr.
  eapply (no_tag_invariant p _ s Hs Hw Hr); cbn; auto; discriminate.
Qed.

(** C3, as stated, fails: a build whose process exits cleanly after
    output without a success marker.  [build] waits for a tag that the
    goroutine, which waits to hand over the window, never sends. *)
Lemma clean_exit_without_tag_blocks :
  tagsOf (scanner "__section__ " "starting build" (stdoutLines cleanBuild)) = [] /\
  ~ alwaysReaches cleanBuild (fun _ => True)
      (build "__section__ " "starting build" cleanBuild).
Proof.
  split; [reflexivity|]. intros H.
  pose proof (alwaysReaches_not_stuck cleanBuild _ _ H
                (run cleanBuild 10 (build "__section__ " "starting build" cleanBuild))
                (reachable_run cleanBuild 10 _) eq_refl) as Hret.
  vm_compute in Hret. discriminate Hret.
Qed.

(** C9.  When [cmd.Output] fails with an error that is not a
    [*exec.ExitError] (the executable was not found, the process could not
    be started), [tag] panics in its type assertion and returns nothing to
    its caller; a failure it returns comes from an exit error. *)
Theorem tag_panics_on_other_errors (tagName fullImageTag : string) (err : error) :
  (forall state stderr, err <> ExitError state stderr) ->
  tag tagName fullImageTag (Some err) =
    Panicked "interface conversion: error is not *exec.ExitError" /\
  (forall r, tag tagName fullImageTag (Some err) <> Returned r) /\
  (forall output e,
      tag tagName fullImageTag output = Returned (Some e) ->
      exists state stderr, output = Some (ExitError state stderr)).
Proof.
  intros Hne. destruct err as [state stderr|msg].
  - exfalso. apply (Hne state stderr). reflexivity.
  - split; [reflexivity|]. split; [intros r; discriminate|].
    intros [[state stderr|msg']|] e He; try discriminate. now exists state, stderr.
Qed.

(** [docker] is not on the path: [tag] panics. *)
Lemma tag_panics_on_other_errors_witness :
  tag "abc123" "r8.im/model:abc123"
      (Some (errorString "exec: docker: executable file not found in $PATH")) =
    Panicked "interface conversion: error is not *exec.ExitError".
Proof.
  exact (proj1 (tag_panics_on_other_errors "abc123" "r8.im/model:abc123"
                  (errorString "exec: docker: executable file not found in $PATH")
                  ltac:(intros state stderr; discriminate))).
Defined.

(** C5, as the code has it.  A [docker tag] that exits with a failure
    makes [tag] return an error whose message ends with the standard error
    [cmd.Output] collected.  A [push] that returns an error returns the
    error of [cmd.StderrPipe], or the error of [cmd.Run] unchanged after
    every line of the standard error of [docker push] has been written to
    the logger. *)
Theorem publish_failures (tagName fullImageTag : string) :
  (forall state stderr,
      exists e,
        tag tagName fullImageTag (Some (ExitError state stderr)) = Returned (Some e) /\
        Error e = "Failed to tag " ++ tagName ++ " as " ++ fullImageTag
                  ++ ", got error: " ++ stderr /\
        Contains (Error e) stderr = true) /\
  (forall stderrPipe stderrLines runErr e log,
      push fullImageTag stderrPipe stderrLines runErr = (Returned (Some e), log) ->
      stderrPipe = Some e \/
      (stderrPipe = None /\ runErr = Some e /\
       log = (LInfo ("Pushing " ++ fullImageTag ++ " to registry")
              :: List.map LInfo stderrLines))).
Proof.
  split.
  - intros state stderr. eexists. split; [reflexivity|]. split; [reflexivity|].
    cbn [Error].
    pose proof (Contains_app
                  ("Failed to tag " ++ tagName ++ " as " ++ fullImageTag ++ ", got error: ")
                  stderr "") as H.
    now rewrite append_nil_r, !append_assoc in H.
  - intros stderrPipe stderrLines runErr e log. unfold push.
    destruct stderrPipe as [e'|].
    + intros [= -> <-]. now left.
    + assert (Hpipe : forall lines out,
                 match pipeToWithDockerChecks lines out with
                 | (None, out') => out' = (out ++ List.map LInfo lines)%list
                 | (Some _, _) => True
                 end).
      { induction lines as [|l lines IH]; intros out; cbn [pipeToWithDockerChecks].
        - simpl. now rewrite app_nil_r.
        - unfold dockerCheck.
          destruct (Contains l daemonDown); [exact I|].
          destruct (Contains l grpcUpgrade); [exact I|].
          specialize (IH (out ++ [LInfo l])%list).
          destruct (pipeToWithDockerChecks lines (out ++ [LInfo l])) as [[f|] out']; [exact I|].
          rewrite IH, <- app_assoc. reflexivity. }
      specialize (Hpipe stderrLines [LInfo ("Pushing " ++ fullImageTag ++ " to registry")]).
      destruct (pipeToWithDockerChecks stderrLines _) as [[f|] out']; [discriminate|].
      intros [= -> <-]. right. subst out'. repeat split; reflexivity.
Qed.

(** A refused push: the exit status is returned, the refusal is logged. *)
Lemma publish_failures_witness :
  push "r8.im/model:abc" None ["denied: requested access to the resource is denied"]
       (Some (ExitError "exit status 1" "")) =
    (Returned (Some (ExitError "exit status 1" "")),
     [LInfo "Pushing r8.im/model:abc to registry";
      LInfo "denied: requested access to the resource is denied"]) /\
  (None = Some (ExitError "exit status 1" "") \/
   (@None error = None /\
    Some (ExitError "exit status 1" "") = Some (ExitError "exit status 1" "") /\
    [LInfo "Pushing r8.im/model:abc to registry";
     LInfo "denied: requested access to the resource is denied"] =
    (LInfo ("Pushing " ++ "r8.im/model:abc" ++ " to registry")
     :: List.map LInfo ["denied: requested access to the resource is denied"]))).
Proof.
  split; [reflexivity|].
  exact (proj2 (publish_failures "abc" "r8.im/model:abc") None
           ["denied: requested access to the resource is denied"]
           (Some (ExitError "exit status 1" "")) (ExitError "exit status 1" "") _ eq_refl).
Defined.

(** C5, as stated, fails for [push]: the error it returns for a refused
    push is the exit status of [docker push]; the text the tool wrote to
    its standard error is in the log, not in the error. *)
Lemma push_error_lacks_stderr :
  push "r8.im/model:abc" None ["denied: requested access to the resource is denied"]
       (Some (ExitError "exit status 1" "")) =
    (Returned (Some (ExitError "exit status 1" "")),
     [LInfo "Pushing r8.im/model:abc to registry";
      LInfo "denied: requested access to the resource is denied"]) /\
  Error (ExitError "exit status 1" "") = "exit status 1" /\
  Contains (Error (ExitError "exit status 1" ""))
           "denied: requested access to the resource is denied" = false.
Proof. repeat split; reflexivity. Qed.

End publisher.

(* ===================================================================== *)
(** * Properties: package strconv and the serving session                 *)
(* ===================================================================== *)

Module serving_facts.
Import strings strings_facts.

(** The value [ParseFloat] returns next to an error is zero (a syntax
    error) or an infinity (a range error). *)
Lemma ParseFloat_error (s : string) (f : strconv.float64) (e : strconv.NumError) :
  strconv.ParseFloat s = (f, Some e) ->
  f = strconv.zero \/ exists neg, f = strconv.Inf neg.
Proof.
  unfold strconv.ParseFloat, strconv.atof64.
  destruct (strconv.special s) as [[v r]|].
  - destruct r; intros [= <- <-]. now left.
  - destruct (strconv.readFloat s) as [n|].
    + destruct (strconv.nearest n) as [b|b| |b m x] eqn:En;
        destruct (strconv.rest n); intros [= <- <-];
        solve [now left | right; now exists b].
    + destruct s; intros [= <- <-]; now left.
Qed.

Lemma ParseFloat_error_not_sentinel (s : string) (f : strconv.float64) (e : strconv.NumError) :
  strconv.ParseFloat s = (f, Some e) -> f <> serving.unknownTime.
Proof.
  intros H. destruct (ParseFloat_error s f e H) as [->|[neg ->]]; discriminate.
Qed.

(** The sentinel is the [float64] -1. *)
Lemma unknownTime_minus_one : serving.unknownTime = strconv.ofZ (-1).
Proof. reflexivity. Qed.

Lemma removeOne_head (path : string) (l : list string) :
  serving.removeOne path (path :: l) = l.
Proof. simpl. now rewrite String.eqb_refl. Qed.

(** A field that is encoded leaves no file open and is the part for it. *)
Lemma encodeField_ok w key val opened part opened' :
  serving.encodeField w key val opened = (Returned (inl part), opened') ->
  opened' = opened /\ serving.partFor w (key, val) part.
Proof.
  unfold serving.encodeField, serving.partFor. cbn [fst snd].
  destruct (serving.File val) as [path|].
  - destruct (serving.fs w path) as [err|data [re|] [ce|]]; try discriminate.
    rewrite removeOne_head. intros [= <- <-]. split; [reflexivity|].
    exists data. split; reflexivity.
  - destruct (serving.String val) as [text|]; [|discriminate].
    intros [= <- <-]. split; [reflexivity|]. exists text. split; reflexivity.
Qed.

Lemma encodeFields_ok w fields body0 opened body opened' :
  serving.encodeFields w fields body0 opened = (Returned (inl body), opened') ->
  opened' = opened /\
  exists parts, body = (body0 ++ parts)%list /\ Forall2 (serving.partFor w) fields parts.
Proof.
  revert body0 opened. induction fields as [|[key val] rest IH]; intros body0 opened.
  - intros [= <- <-]. split; [reflexivity|]. exists []. split; [now rewrite app_nil_r|constructor].
  - cbn [serving.encodeFields].
    destruct (serving.encodeField w key val opened) as [[[part|err]|r|m] o1] eqn:E;
      try discriminate.
    apply encodeField_ok in E. destruct E as [-> Hp]. intros H.
    apply IH in H. destruct H as [-> (parts & -> & HF)]. split; [reflexivity|].
    exists (part :: parts). split; [now rewrite <- app_assoc|]. now constructor.
Qed.

Lemma encodeFields_app w l1 l2 body0 opened body1 opened1 :
  serving.encodeFields w l1 body0 opened = (Returned (inl body1), opened1) ->
  serving.encodeFields w (l1 ++ l2) body0 opened = serving.encodeFields w l2 body1 opened1.
Proof.
  revert body0 opened. induction l1 as [|[key val] l1 IH]; intros body0 opened.
  - intros [= <- <-]. reflexivity.
  - cbn [serving.encodeFields app].
    destruct (serving.encodeField w key val opened) as [[[part|err]|r|m] o1];
      try discriminate.
    apply IH.
Qed.

(** What a successful call went through. *)
Lemma RunInference_ok w d fields res eff :
  serving.RunInference w d fields = (Returned (inl res), eff) ->
  exists body resp buf,
    serving.encodeFields w fields [] [] = (Returned (inl body), []) /\
    serving.roundTrip w
      {| serving.Method := "POST";
         serving.URL := "http://localhost:" ++ itoa (serving.port d) ++ "/infer";
         serving.Body := body |} = inl resp /\
    serving.StatusCode resp = serving.StatusOK /\
    serving.ResponseBody resp = (buf, None) /\
    serving.decode resp serving.noEffects = (inl res, eff).
Proof.
  unfold serving.RunInference.
  destruct (serving.encodeFields w fields [] []) as [[[body|err]|r|m] opened] eqn:E;
    try discriminate.
  destruct (encodeFields_ok _ _ _ _ _ _ E) as [-> _].
  destruct (serving.roundTrip w _) as [resp|err] eqn:R; [|discriminate].
  destruct (serving.StatusCode resp =? serving.StatusOK) eqn:S; cbn [negb]; [|discriminate].
  apply Z.eqb_eq in S.
  destruct (serving.decode resp _) as [r eff'] eqn:D. intros [= -> <-].
  exists body, resp. unfold serving.decode in D.
  destruct (serving.ResponseBody resp) as [buf [err|]] eqn:B; [discriminate|].
  exists buf. repeat split; try assumption.
  unfold serving.decode, serving.noEffects. rewrite B. exact D.
Qed.

Lemma pollOnce_stillStarting timeout p :
  serving.stillStarting timeout p -> serving.pollOnce timeout p = None.
Proof.
  intros (Ht & (state & Hi & He) & Hp). unfold serving.pollOnce.
  destruct (Z.ltb_spec timeout (serving.elapsed p)); [lia|].
  rewrite Hi, He. destruct (serving.ping p) as [err|code]; [reflexivity|].
  destruct (Z.eqb_spec code serving.StatusOK) as [->|]; [congruence|reflexivity].
Qed.

Lemma waitForContainerReady_stillStarting timeout before rest :
  Forall (serving.stillStarting timeout) before ->
  serving.waitForContainerReady timeout (before ++ rest) =
  serving.waitForContainerReady timeout rest.
Proof.
  induction 1 as [|p before Hp _ IH]; [reflexivity|].
  cbn [app serving.waitForContainerReady].
  now rewrite (pollOnce_stillStarting _ _ Hp).
Qed.

(** The poll ends: with a clock that [time.Sleep] advances, an iteration
    that begins [n] tenths of a second or less before the deadline is
    followed by at most [n] more. *)
Lemma waitForContainerReady_returns timeout (n : nat) p rest :
  serving.clockAdvances (p :: rest) ->
  timeout - serving.elapsed p < Z.of_nat n * 100000000 ->
  (n <= length rest)%nat ->
  serving.waitForContainerReady timeout (p :: rest) <> None.
Proof.
  revert p rest. induction n as [|n IH]; intros p rest Hc Ht Hl;
    cbn [serving.waitForContainerReady].
  - unfold serving.pollOnce.
    destruct (Z.ltb_spec timeout (serving.elapsed p)); [discriminate|lia].
  - destruct (serving.pollOnce timeout p); [discriminate|].
    destruct rest as [|q rest]; [simpl in Hl; lia|].
    destruct Hc as [Hq Hc]. apply IH; [exact Hc|lia|simpl in Hl; lia].
Qed.

End serving_facts.

(* ===================================================================== *)
(** * Examples, readiness polling and the serving session                 *)
(* ===================================================================== *)

Module session.
Import strings strings_facts serving_facts examples.

Lemma NewExample_lookup (keyVals : gmap string string) (key : string) :
  serving.Values (serving.NewExample keyVals) !! key = serving.newValue <$> keyVals !! key.
Proof.
  unfold serving.NewExample. cbn [serving.Values].
  apply (map_fold_weak_ind
           (fun (r : gmap string serving.ExampleValue) (m : gmap string string) =>
              r !! key = serving.newValue <$> m !! key)).
  - now rewrite !lookup_empty.
  - intros i x m r _ IH. destruct (decide (i = key)) as [->|Hne].
    + now rewrite !lookup_insert_eq.
    + now rewrite !lookup_insert_ne.
Qed.

Lemma NewExampleWithBaseDir_lookup (keyVals : gmap string string) (baseDir key : string) :
  serving.Values (serving.NewExampleWithBaseDir keyVals baseDir) !! key =
  serving.newValueWithBaseDir baseDir <$> keyVals !! key.
Proof.
  unfold serving.NewExampleWithBaseDir. cbn [serving.Values].
  apply (map_fold_weak_ind
           (fun (r : gmap string serving.ExampleValue) (m : gmap string string) =>
              r !! key = serving.newValueWithBaseDir baseDir <$> m !! key)).
  - now rewrite !lookup_empty.
  - intros i x m r _ IH. destruct (decide (i = key)) as [->|Hne].
    + now rewrite !lookup_insert_eq.
    + now rewrite !lookup_insert_ne.
Qed.

(** C8.  A value [@path] becomes a file reference to [path] (to [path]
    joined to the base directory in [NewExampleWithBaseDir]); every other
    value becomes an inline string; every field of a constructed example
    comes from a key of the map and has exactly one of its two pointers
    set; and the map with [k] bound to [@/tmp/x] yields a file reference to
    [/tmp/x] for [k]. *)
Theorem example_construction (keyVals : gmap string string) (baseDir : string) :
  (forall key path,
      keyVals !! key = Some ("@" ++ path) ->
      serving.Values (serving.NewExample keyVals) !! key =
        Some {| serving.String := None; serving.File := Some path |} /\
      serving.Values (serving.NewExampleWithBaseDir keyVals baseDir) !! key =
        Some {| serving.String := None;
                serving.File := Some (filepath.Join baseDir path) |}) /\
  (forall key val,
      keyVals !! key = Some val ->
      HasPrefix val "@" = false ->
      serving.Values (serving.NewExample keyVals) !! key =
        Some {| serving.String := Some val; serving.File := None |} /\
      serving.Values (serving.NewExampleWithBaseDir keyVals baseDir) !! key =
        Some {| serving.String := Some val; serving.File := None |}) /\
  (forall key v,
      serving.Values (serving.NewExample keyVals) !! key = Some v \/
      serving.Values (serving.NewExampleWithBaseDir keyVals baseDir) !! key = Some v ->
      serving.exactlyOne v = true /\ is_Some (keyVals !! key)) /\
  serving.Values (serving.NewExample {[ "k" := "@/tmp/x" ]}) !! "k" =
    Some {| serving.String := None; serving.File := Some "/tmp/x" |}.
Proof.
  split; [|split; [|split]].
  - intros key path H.
    rewrite NewExample_lookup, NewExampleWithBaseDir_lookup, H. split; reflexivity.
  - intros key val H Hp.
    rewrite NewExample_lookup, NewExampleWithBaseDir_lookup, H. cbn [fmap option_fmap option_map].
    unfold serving.newValue, serving.newValueWithBaseDir. rewrite Hp. split; reflexivity.
  - intros key v.
    rewrite NewExample_lookup, NewExampleWithBaseDir_lookup.
    destruct (keyVals !! key) as [val|]; cbn [fmap option_fmap option_map].
    + unfold serving.newValue, serving.newValueWithBaseDir.
      destruct (HasPrefix val "@"); intros [[= <-]|[= <-]]; (split; [reflexivity|eauto]).
    + intros [|]; discriminate.
  - rewrite NewExample_lookup, lookup_singleton_eq. reflexivity.
Qed.

(** The map with [k] bound to [@/tmp/x], with and without a base directory. *)
Lemma example_construction_witness :
  serving.Values (serving.NewExample {[ "k" := "@/tmp/x" ]}) !! "k" =
    Some {| serving.String := None; serving.File := Some "/tmp/x" |} /\
  serving.Values (serving.NewExampleWithBaseDir {[ "k" := "@/tmp/x" ]} "/models/a") !! "k" =
    Some {| serving.String := None;
            serving.File := Some (filepath.Join "/models/a" "/tmp/x") |}.
Proof.
  exact (proj1 (example_construction {[ "k" := "@/tmp/x" ]} "/models/a")
           "k" "/tmp/x" (lookup_singleton_eq "k" "@/tmp/x")).
Defined.

(** C4, as the code has it.  When the container is found exited or dead
    at an iteration that begins within the startup deadline, after
    iterations at which it was still starting, the poll fails at that
    iteration with "Container exited unexpectedly", whatever the later
    observations would be. *)
Theorem exited_container_fails_poll
    (StartupTimeout : Z) (before : list serving.Poll) (p : serving.Poll)
    (after : list serving.Poll) (state : option string) :
  Forall (serving.stillStarting StartupTimeout) before ->
  serving.inspect p = inr state ->
  state = Some "exited" \/ state = Some "dead" ->
  serving.elapsed p <= StartupTimeout ->
  serving.waitForContainerReady StartupTimeout (before ++ p :: after) =
    Some (Some (errorString "Container exited unexpectedly")).
Proof.
  intros Hb Hi Hs Ht. rewrite (waitForContainerReady_stillStarting _ _ _ Hb).
  cbn [serving.waitForContainerReady]. unfold serving.pollOnce.
  destruct (Z.ltb_spec StartupTimeout (serving.elapsed p)); [lia|].
  rewrite Hi. destruct Hs as [->| ->]; reflexivity.
Qed.

Lemma running_stillStarting (t : Z) : t <= fiveMinutes -> serving.stillStarting fiveMinutes (running t).
Proof.
  intros H. split; [exact H|]. split; [|discriminate].
  exists (Some "running"). split; reflexivity.
Qed.

(** A container found exited at the third iteration, well within five
    minutes. *)
Lemma exited_container_fails_poll_witness :
  serving.waitForContainerReady fiveMinutes
    ([running 0; running 150000000] ++ exited 300000000 :: [running 450000000]) =
    Some (Some (errorString "Container exited unexpectedly")).
Proof.
  refine (exited_container_fails_poll fiveMinutes [running 0; running 150000000]
            (exited 300000000) [running 450000000] (Some "exited") _ eq_refl
            (or_introl eq_refl) _).
  - repeat constructor; apply running_stillStarting; unfold fiveMinutes; lia.
  - unfold fiveMinutes. simpl. lia.
Defined.

(** C4, as stated, fails: the container exits while a slow liveness
    request runs past the deadline; the next iteration checks the deadline
    first and reports a timeout. *)
Lemma exited_after_deadline_times_out :
  serving.stillStarting fiveMinutes (running 0) /\
  serving.inspect (exited 300000000001) = inr (Some "exited") /\
  serving.waitForContainerReady fiveMinutes [running 0; exited 300000000001] =
    Some (Some (errorString "Timed out")) /\
  serving.waitForContainerReady fiveMinutes [running 0; exited 300000000001] <>
    Some (Some (errorString "Container exited unexpectedly")).
Proof.
  split; [apply running_stillStarting; unfold fiveMinutes; lia|].
  split; [reflexivity|]. split; [reflexivity|]. discriminate.
Qed.

(** C10.  A call that succeeds returns a result whose outputs are the
    single entry [output]: the whole body of the response, read to its
    end, with the part of the [Content-Type] header before the first [;]
    as its MIME type. *)
Theorem single_output (w : serving.World) (d : serving.LocalDockerDeployment)
    (fields : list (string * serving.ExampleValue))
    (res : serving.Result) (eff : serving.Effects) :
  serving.RunInference w d fields = (Returned (inl res), eff) ->
  exists body resp buf,
    serving.roundTrip w
      {| serving.Method := "POST";
         serving.URL := "http://localhost:" ++ itoa (serving.port d) ++ "/infer";
         serving.Body := body |} = inl resp /\
    serving.ResponseBody resp = (buf, None) /\
    serving.ResultValues res =
      {[ "output" :=
           {| serving.Buffer := buf;
              serving.MimeType :=
                Split0 (serving.Get (serving.Header resp) "Content-Type") ";" |} ]} /\
    size (serving.ResultValues res) = 1%nat /\
    (forall name v, serving.ResultValues res !! name = Some v -> name = "output").
Proof.
  intros H. apply RunInference_ok in H.
  destruct H as (body & resp & buf & _ & HR & _ & HB & HD).
  exists body, resp, buf. split; [exact HR|]. split; [exact HB|].
  unfold serving.decode in HD. rewrite HB in HD.
  destruct (serving.timing (serving.Get (serving.Header resp) "X-Setup-Time") _) as [st e1].
  destruct (serving.timing (serving.Get (serving.Header resp) "X-Run-Time") _) as [rt e2].
  injection HD as <- _. cbn [serving.ResultValues].
  split; [reflexivity|]. split; [apply map_size_singleton|].
  intros name v Hl. apply lookup_singleton_Some in Hl. symmetry. apply Hl.
Qed.

(** The result for a file at [/tmp/x] in the world of the examples. *)
Lemma single_output_witness :
  size (serving.ResultValues inferred) = 1%nat /\
  (forall name v, serving.ResultValues inferred !! name = Some v -> name = "output").
Proof.
  destruct (single_output world deployment [("image", fileField "/tmp/x")]
              inferred inferredEffects ltac:(vm_compute; reflexivity))
    as (body & resp & buf & _ & _ & _ & Hsize & Honly).
  exact (conj Hsize Honly).
Defined.

(** C1, in the code.  When the response has an [X-Setup-Time] that parses
    and a non-empty [X-Run-Time] that does not, the call succeeds and
    reports the parse failure, the setup time is the parsed value, and the
    run time is the value [ParseFloat] returned with its error: zero, or
    an infinity, and not the sentinel -1. *)
Theorem unparsed_run_time_replaces_sentinel
    (w : serving.World) (d : serving.LocalDockerDeployment)
    (fields : list (string * serving.ExampleValue))
    (body : list serving.Part) (opened : list string)
    (resp : serving.Response) (buf : string)
    (v r : strconv.float64) (e : strconv.NumError) :
  serving.encodeFields w fields [] [] = (Returned (inl body), opened) ->
  serving.roundTrip w
    {| serving.Method := "POST";
       serving.URL := "http://localhost:" ++ itoa (serving.port d) ++ "/infer";
       serving.Body := body |} = inl resp ->
  serving.StatusCode resp = serving.StatusOK ->
  serving.ResponseBody resp = (buf, None) ->
  serving.Get (serving.Header resp) "X-Setup-Time" <> "" ->
  strconv.ParseFloat (serving.Get (serving.Header resp) "X-Setup-Time") = (v, None) ->
  serving.Get (serving.Header resp) "X-Run-Time" <> "" ->
  strconv.ParseFloat (serving.Get (serving.Header resp) "X-Run-Time") = (r, Some e) ->
  exists res eff,
    serving.RunInference w d fields = (Returned (inl res), eff) /\
    serving.SetupTime res = v /\
    serving.RunTime res = r /\
    serving.RunTime res <> serving.unknownTime /\
    (r = strconv.zero \/ exists neg, r = strconv.Inf neg) /\
    serving.console eff =
      [serving.RunTimeUnparsed (serving.Get (serving.Header resp) "X-Run-Time") e].
Proof.
  intros HE HR HS HB Hs Hv Hr He.
  unfold serving.RunInference. rewrite HE, HR, HS. cbn [Z.eqb negb].
  unfold serving.decode, serving.timing. rewrite HB.
  apply String.eqb_neq in Hs, Hr. rewrite Hs, Hr, Hv, He.
  eexists. eexists. split; [reflexivity|]. cbn.
  split; [reflexivity|]. split; [reflexivity|].
  split; [apply (ParseFloat_error_not_sentinel _ _ _ He)|].
  split; [apply (ParseFloat_error _ _ _ He)|reflexivity].
Qed.

(** [X-Setup-Time: 1.5] and [X-Run-Time: not-a-number]: the setup time is
    1.5 and the run time is 0. *)
Lemma unparsed_run_time_replaces_sentinel_witness :
  exists res eff,
    serving.RunInference world deployment [("text", textField "hello")] =
      (Returned (inl res), eff) /\
    serving.SetupTime res = S754_finite false 6755399441055744 (-52) /\
    serving.RunTime res = strconv.zero /\
    serving.RunTime res <> serving.unknownTime /\
    (strconv.zero = strconv.zero \/ exists neg, strconv.zero = strconv.Inf neg) /\
    serving.console eff =
      [serving.RunTimeUnparsed (serving.Get (serving.Header timedResponse) "X-Run-Time")
         strconv.ErrSyntax].
Proof.
  exact (unparsed_run_time_replaces_sentinel world deployment
           [("text", textField "hello")]
           [{| serving.FormName := "text"; serving.FileName := None; serving.Data := "hello" |}]
           [] timedResponse "PNG"
           (S754_finite false 6755399441055744 (-52)) strconv.zero strconv.ErrSyntax
           eq_refl eq_refl eq_refl eq_refl
           ltac:(vm_compute; discriminate) ltac:(vm_compute; reflexivity)
           ltac:(vm_compute; discriminate) ltac:(vm_compute; reflexivity)).
Defined.

(** What a successful call sent: one part per field, in the order of the
    fields, a file part with the whole file and its base name for a file
    reference and a plain form field for an inline value; and no file is
    left open. *)
Lemma encoded_parts (w : serving.World) (d : serving.LocalDockerDeployment)
    (fields : list (string * serving.ExampleValue))
    (res : serving.Result) (eff : serving.Effects) :
  serving.RunInference w d fields = (Returned (inl res), eff) ->
  serving.openFiles eff = [] /\
  exists body resp,
    serving.roundTrip w
      {| serving.Method := "POST";
         serving.URL := "http://localhost:" ++ itoa (serving.port d) ++ "/infer";
         serving.Body := body |} = inl resp /\
    Forall2 (serving.partFor w) fields body.
Proof.
  intros H. apply RunInference_ok in H.
  destruct H as (body & resp & buf & HE & HR & _ & HB & HD).
  split.
  - unfold serving.decode in HD. rewrite HB in HD.
    destruct (serving.timing _ _) as [st e1] in HD.
    destruct (serving.timing _ _) as [rt e2] in HD.
    injection HD as _ <-. reflexivity.
  - exists body, resp. split; [exact HR|].
    apply encodeFields_ok in HE. destruct HE as [_ (parts & -> & HF)]. exact HF.
Qed.

(** C6, in the code.  When the copy of a referenced file into its part
    fails, after fields that were encoded, the call returns the error of
    the copy at once: the file it opened is still open. *)
Theorem failed_copy_leaves_file_open
    (w : serving.World) (d : serving.LocalDockerDeployment)
    (before after : list (string * serving.ExampleValue))
    (body : list serving.Part) (opened : list string)
    (key : string) (val : serving.ExampleValue)
    (path data : string) (err : error) (closeErr : option error) :
  serving.encodeFields w before [] [] = (Returned (inl body), opened) ->
  serving.File val = Some path ->
  serving.fs w path = serving.Opens data (Some err) closeErr ->
  serving.RunInference w d (before ++ (key, val) :: after) =
    (Returned (inr err),
     {| serving.openFiles := [path]; serving.logs := []; serving.console := [] |}).
Proof.
  intros HE HF HO. unfold serving.RunInference.
  rewrite (encodeFields_app _ _ _ _ _ _ _ HE).
  destruct (encodeFields_ok _ _ _ _ _ _ HE) as [-> _].
  cbn [serving.encodeFields]. unfold serving.encodeField. rewrite HF, HO. reflexivity.
Qed.

(** A file reference to the directory [/tmp]: the call fails and [/tmp]
    is left open. *)
Lemma failed_copy_leaves_file_open_witness :
  serving.RunInference world deployment
    ([("text", textField "hello")] ++ ("image", fileField "/tmp") :: [("mask", fileField "/tmp/x")]) =
    (Returned (inr (errorString "read /tmp: is a directory")),
     {| serving.openFiles := ["/tmp"]; serving.logs := []; serving.console := [] |}).
Proof.
  exact (failed_copy_leaves_file_open world deployment
           [("text", textField "hello")] [("mask", fileField "/tmp/x")]
           [{| serving.FormName := "text"; serving.FileName := None; serving.Data := "hello" |}]
           [] "image" (fileField "/tmp") "/tmp" ""
           (errorString "read /tmp: is a directory") None
           eq_refl eq_refl eq_refl).
Defined.

End session.

(* ===================================================================== *)
(** * More on the build log classifier                                    *)
(* ===================================================================== *)

Module classifier.
Import strings strings_facts docker scanner_facts.

Section Classifier.
Variable SectionPrefix : string.
Variable SectionStartingBuild : string.

Local Abbreviation scanLine := (docker.scanLine SectionPrefix).
Local Abbreviation scanLoop := (docker.scanLoop SectionPrefix).
Local Abbreviation scanner := (docker.scanner SectionPrefix SectionStartingBuild).
Local Abbreviation isMarker := (docker.isMarker SectionPrefix).
Local Abbreviation countMarkers := (docker.countMarkers SectionPrefix).
Local Abbreviation sectionPrefix := (docker.sectionPrefix SectionPrefix).

Lemma spanDigits_app (n : string) (c : ascii) (r : string) :
  allChars strconv.isDigit n = true ->
  strconv.isDigit c = false ->
  spanDigits (n ++ String c r) = (n, String c r).
Proof.
  intros Hn Hc. induction n as [|d n IH]; simpl.
  - now rewrite Hc.
  - simpl in Hn. apply andb_true_iff in Hn. destruct Hn as [Hd Hn].
    rewrite Hd, (IH Hn). reflexivity.
Qed.

Lemma eqb_empty_false (n : string) : n <> "" -> String.eqb n "" = false.
Proof. intros H. now apply String.eqb_neq. Qed.

(** What the regular expression accepts. *)
Lemma buildkitMatch_accepts (n digest tail : string) :
  n <> "" ->
  allChars strconv.isDigit n = true ->
  String.length digest = 12%nat ->
  allChars isLowerHex digest = true ->
  tail <> "" ->
  allChars (fun c => negb (code c =? 10)) tail = true ->
  buildkitMatch ("#" ++ n ++ writingImage ++ digest ++ tail) = Some digest.
Proof.
  intros Hn Hd Hl Hh Ht Hnl. cbn [append buildkitMatch].
  change (code "#" =? 35) with true. cbv iota.
  change (n ++ writingImage ++ digest ++ tail)
    with (n ++ String " " ("writing image sha256:" ++ digest ++ tail)).
  rewrite (spanDigits_app n " " _ Hd eq_refl), (eqb_empty_false n Hn).
  change (String " " ("writing image sha256:" ++ digest ++ tail))
    with (writingImage ++ digest ++ tail).
  rewrite HasPrefix_app, drop_app.
  replace (take 12 (digest ++ tail)) with digest
    by (rewrite <- Hl; symmetry; apply take_app).
  replace (drop 12 (digest ++ tail)) with tail
    by (rewrite <- Hl; symmetry; apply drop_app).
  rewrite Hl, Hh, (eqb_empty_false tail Ht), Hnl. reflexivity.
Qed.

Lemma length_take_le (n : nat) (s : string) : (String.length (take n s) <= n)%nat.
Proof. revert s. induction n as [|n IH]; intros [|c s]; simpl; auto with arith. Qed.

(** What the regular expression captures. *)
Lemma buildkitMatch_digest (line digest : string) :
  buildkitMatch line = Some digest ->
  String.length digest = 12%nat /\ allChars isLowerHex digest = true /\
  HasPrefix line "#" = true.
Proof.
  unfold buildkitMatch. destruct line as [|c r]; [discriminate|].
  destruct (code c =? 35) eqn:Ec; [|discriminate].
  destruct (spanDigits r) as [ds r1].
  destruct (String.eqb ds ""); [discriminate|].
  destruct (HasPrefix r1 writingImage); [|discriminate].
  set (r2 := drop (String.length writingImage) r1).
  destruct (String.length (take 12 r2) =? 12)%nat eqn:El; [|discriminate].
  destruct (allChars isLowerHex (take 12 r2)) eqn:Eh; [|discriminate].
  destruct (negb (String.eqb (drop 12 r2) "")); [|discriminate].
  destruct (allChars _ (drop 12 r2)); [|discriminate].
  intros [= <-]. apply Nat.eqb_eq in El. repeat split; try assumption.
  simpl. destruct (Ascii.eqb_spec c "#") as [|Hne]; [reflexivity|].
  exfalso. apply Hne. apply Z.eqb_eq in Ec. unfold code in Ec.
  apply (f_equal Z.to_N) in Ec. rewrite N2Z.id in Ec.
  apply (f_equal ascii_of_N) in Ec. now rewrite ascii_N_embedding in Ec.
Qed.

Lemma legacy_not_buildkit (line : string) :
  HasPrefix line successPrefix = true -> buildkitMatch line = None.
Proof.
  intros H. apply HasPrefix_inv in H. rewrite H. reflexivity.
Qed.

Lemma logsOf_app (a b : list Action) : logsOf (a ++ b) = (logsOf a ++ logsOf b)%list.
Proof. unfold logsOf. apply flat_map_app. Qed.

Lemma debugLines_app (a b : list LogLine) :
  debugLines (a ++ b) = (debugLines a ++ debugLines b)%list.
Proof. unfold debugLines. apply flat_map_app. Qed.

Lemma infoLines_app (a b : list LogLine) :
  infoLines (a ++ b) = (infoLines a ++ infoLines b)%list.
Proof. unfold infoLines. apply flat_map_app. Qed.

(** What one line writes to the logger. *)
Lemma logs_scanLine st line :
  debugLines (logsOf (snd (scanLine st line))) = [line] /\
  length (infoLines (logsOf (snd (scanLine st line)))) =
    (if isMarker line then 1 else 0)%nat.
Proof.
  unfold docker.scanLine, docker.isMarker.
  destruct (Contains line (docker.sectionPrefix SectionPrefix));
    destruct (HasPrefix line successPrefix); destruct (buildkitMatch line);
    split; reflexivity.
Qed.

(** [Cut] finds the first occurrence. *)
Lemma Cut_first (s sep before after : string) :
  Cut s sep = Some (before, after) ->
  forall b a, s = b ++ sep ++ a -> (String.length before <= String.length b)%nat.
Proof.
  revert before. induction s as [|c s IH]; intros before; rewrite Cut_unfold.
  - destruct (HasPrefix "" sep); [|discriminate]. intros [= <- _] b a _. simpl. lia.
  - destruct (HasPrefix (String c s) sep) eqn:E.
    + intros [= <- _] b a _. simpl. lia.
    + destruct (Cut s sep) as [[b0 a0]|] eqn:E2; [|discriminate].
      intros [= <- <-] b a Hs. destruct b as [|c' b].
      * simpl in Hs. rewrite Hs, HasPrefix_app in E. discriminate.
      * simpl in Hs. injection Hs as _ Hs. simpl.
        specialize (IH b0 eq_refl b a Hs). lia.
Qed.

End Classifier.

(** X1.  A line [#<digits> writing image sha256:<12 hex digits><more>]
    makes the goroutine send exactly one tag, the twelve digits, whatever
    its section and window are. *)
Theorem buildkit_line_tag (SectionPrefix : string) (st : scanState)
    (n digest tail : string) :
  n <> "" ->
  allChars strconv.isDigit n = true ->
  String.length digest = 12%nat ->
  allChars isLowerHex digest = true ->
  tail <> "" ->
  allChars (fun c => negb (code c =? 10)) tail = true ->
  tagsOf (snd (scanLine SectionPrefix st ("#" ++ n ++ writingImage ++ digest ++ tail)))
    = [digest].
Proof.
  intros Hn Hd Hl Hh Ht Hnl. rewrite tagsOf_scanLine. unfold lineTags.
  rewrite (buildkitMatch_accepts n digest tail Hn Hd Hl Hh Ht Hnl). reflexivity.
Qed.

(** A line of a BuildKit build. *)
Lemma buildkit_line_tag_witness :
  tagsOf (snd (scanLine "__section__ " (scanStart "starting build")
                 ("#" ++ "12" ++ writingImage ++ "0123456789ab" ++ "cdef done")))
    = ["0123456789ab"].
Proof.
  exact (buildkit_line_tag "__section__ " (scanStart "starting build")
           "12" "0123456789ab" "cdef done"
           ltac:(discriminate) eq_refl eq_refl eq_refl ltac:(discriminate) eq_refl).
Defined.

(** X2.  A line makes the goroutine send at most one tag, and a tag it
    sends is the trimmed rest of a line that begins with "Successfully
    built ", or twelve lower-case hexadecimal digits taken from a line
    that begins with [#]. *)
Theorem tags_of_a_line (SectionPrefix : string) (st : scanState) (line : string) :
  (length (tagsOf (snd (scanLine SectionPrefix st line))) <= 1)%nat /\
  (forall t,
      In t (tagsOf (snd (scanLine SectionPrefix st line))) ->
      (HasPrefix line successPrefix = true /\ t = TrimSpace (TrimPrefix line successPrefix)) \/
      (HasPrefix line "#" = true /\ String.length t = 12%nat /\
       allChars isLowerHex t = true)).
Proof.
  rewrite tagsOf_scanLine. unfold lineTags.
  destruct (HasPrefix line successPrefix) eqn:E.
  - rewrite (legacy_not_buildkit line E). split; [simpl; lia|].
    intros t [<-|[]]. left. split; reflexivity.
  - destruct (buildkitMatch line) as [d|] eqn:B.
    + split; [simpl; lia|]. intros t [<-|[]]. right.
      destruct (buildkitMatch_digest line d B) as (Hl & Hh & Hp). auto.
    + split; [simpl; lia|]. intros t [].
Qed.

(** The goroutine writes every line the scanner yields to the logger at
    debug level, in the order of arrival, and one line at info level for
    each section-marker line among them. *)
Lemma logs_of_scanned_lines (SectionPrefix SectionStartingBuild : string)
    (lines : list string) :
  debugLines (logsOf (scanner SectionPrefix SectionStartingBuild lines)) = lines /\
  length (infoLines (logsOf (scanner SectionPrefix SectionStartingBuild lines))) =
    countMarkers SectionPrefix lines.
Proof.
  assert (H : forall st,
             debugLines (logsOf (snd (scanLoop SectionPrefix st lines))) = lines /\
             length (infoLines (logsOf (snd (scanLoop SectionPrefix st lines)))) =
               countMarkers SectionPrefix lines).
  { induction lines as [|line rest IH]; intros st; [split; reflexivity|].
    rewrite scanLoop_cons. cbn [snd].
    rewrite logsOf_app, debugLines_app, infoLines_app, length_app.
    destruct (logs_scanLine SectionPrefix st line) as [Hd Hi].
    destruct (IH (fst (scanLine SectionPrefix st line))) as [IHd IHi].
    rewrite Hd, Hi, IHd, IHi. cbn [countMarkers].
    destruct (isMarker SectionPrefix line); split; reflexivity. }
  specialize (H (scanStart SectionStartingBuild)). unfold scanner.
  destruct (scanLoop SectionPrefix (scanStart SectionStartingBuild) lines) as [st acts].
  cbn [snd] in H. rewrite logsOf_app, debugLines_app, infoLines_app, length_app.
  cbn. rewrite !app_nil_r, Nat.add_0_r. exact H.
Qed.

(** X4.  A section-marker line starts the section named by the text after
    the first occurrence of the marker in the line: the window is emptied
    and the name is written to the logger at info level after two spaces,
    a star and a space. *)
Theorem marker_line_starts_section (SectionPrefix : string) (st : scanState)
    (line : string) :
  isMarker SectionPrefix line = true ->
  exists before name,
    line = before ++ sectionPrefix SectionPrefix ++ name /\
    (forall b a,
        line = b ++ sectionPrefix SectionPrefix ++ a ->
        (String.length before <= String.length b)%nat) /\
    currentSection (fst (scanLine SectionPrefix st line)) = name /\
    currentLogLines (fst (scanLine SectionPrefix st line)) = [] /\
    infoLines (logsOf (snd (scanLine SectionPrefix st line))) = ["  * " ++ name].
Proof.
  unfold isMarker, Contains. intros H.
  destruct (Cut line (sectionPrefix SectionPrefix)) as [[before name]|] eqn:E;
    [|discriminate].
  exists before, name. split; [apply Cut_Some, E|]. split; [apply (Cut_first _ _ _ _ E)|].
  unfold scanLine, Contains, SplitN2. rewrite E. cbn [nth fst snd currentSection currentLogLines].
  split; [reflexivity|]. split; [reflexivity|].
  destruct (HasPrefix line successPrefix); destruct (buildkitMatch line); reflexivity.
Qed.

(** A step of a Dockerfile that announces a section. *)
Lemma marker_line_starts_section_witness :
  exists before name,
    "Step 4/9 : RUN __section__ Installing Python" =
      before ++ sectionPrefix "__section__ " ++ name /\
    (forall b a,
        "Step 4/9 : RUN __section__ Installing Python" =
          b ++ sectionPrefix "__section__ " ++ a ->
        (String.length before <= String.length b)%nat) /\
    currentSection (fst (scanLine "__section__ " (scanStart "starting build")
                           "Step 4/9 : RUN __section__ Installing Python")) = name /\
    currentLogLines (fst (scanLine "__section__ " (scanStart "starting build")
                            "Step 4/9 : RUN __section__ Installing Python")) = [] /\
    infoLines (logsOf (snd (scanLine "__section__ " (scanStart "starting build")
                              "Step 4/9 : RUN __section__ Installing Python")))
      = ["  * " ++ name].
Proof.
  exact (marker_line_starts_section "__section__ " (scanStart "starting build")
           "Step 4/9 : RUN __section__ Installing Python" eq_refl).
Defined.

End classifier.

(* ===================================================================== *)
(** * More on [build] and on publishing                                   *)
(* ===================================================================== *)

Module builds.
Import strings strings_facts docker scanner_facts build_facts examples.

(** The actions before the first tag is sent are log lines. *)
Lemma first_send (acts : list Action) (t : string) (rest : list string) :
  Forall (fun a => isSendLastLogs a = false) acts ->
  tagsOf acts = t :: rest ->
  exists ls g, acts = (List.map ALog ls ++ ASendTag t :: g)%list.
Proof.
  induction 1 as [|a acts Ha _ IH]; intros Ht; [discriminate|].
  destruct a as [l|t'|w]; simpl in *; try discriminate.
  - destruct (IH Ht) as (ls & g & ->). now exists (l :: ls), g.
  - injection Ht as -> _. now exists [], acts.
Qed.

Lemma scanner_first_send (SectionPrefix SectionStartingBuild : string)
    (lines : list string) (t : string) (rest : list string) :
  tagsOf (scanner SectionPrefix SectionStartingBuild lines) = t :: rest ->
  exists ls g,
    scanner SectionPrefix SectionStartingBuild lines =
      (List.map ALog ls ++ ASendTag t :: g)%list.
Proof.
  unfold scanner.
  pose proof (scanLoop_no_lastLogs SectionPrefix (scanStart SectionStartingBuild) lines) as Hn.
  destruct (scanLoop SectionPrefix (scanStart SectionStartingBuild) lines) as [st acts].
  cbn [snd] in Hn. rewrite tagsOf_app. simpl. rewrite app_nil_r. intros Ht.
  destruct (first_send acts t rest Hn Ht) as (ls & g & ->).
  exists ls, (g ++ [ASendLastLogs (currentLogLines st)])%list.
  now rewrite <- app_assoc.
Qed.

Section Build.
Variable p : Process.

(** [build] has the tag: it returns it, whatever the goroutine goes on
    to do. *)
Lemma tag_at_log t g out :
  alwaysReaches p
    (fun s => pc s = pcReturn t None /\
              exists before, logged s = (before ++ [LInfo ("Successfully built " ++ t)])%list)
    {| pc := pcLogTag t; goroutine := g; logged := out |}.
Proof.
  revert out. induction g as [|a g IH]; intros out.
  - apply reachesLater; [reflexivity|discriminate|].
    intros s' [<-|[]]. apply reachesNow; [reflexivity|]. split; [reflexivity|]. now exists out.
  - destruct a as [l|t'|w].
    + apply reachesLater; [reflexivity|discriminate|].
      intros s' [<-|[<-|[]]]; [|apply IH].
      apply reachesNow; [reflexivity|]. split; [reflexivity|]. now exists out.
    + apply reachesLater; [reflexivity|discriminate|].
      intros s' [<-|[]]. apply reachesNow; [reflexivity|]. split; [reflexivity|]. now exists out.
    + apply reachesLater; [reflexivity|discriminate|].
      intros s' [<-|[]]. apply reachesNow; [reflexivity|]. split; [reflexivity|]. now exists out.
Qed.

Lemma tag_at_recv t ls g out :
  alwaysReaches p
    (fun s => pc s = pcReturn t None /\
              exists before, logged s = (before ++ [LInfo ("Successfully built " ++ t)])%list)
    {| pc := pcRecvTag; goroutine := (List.map ALog ls ++ ASendTag t :: g)%list;
       logged := out |}.
Proof.
  revert out. induction ls as [|l ls IH]; intros out.
  - apply reachesLater; [reflexivity|discriminate|].
    intros s' [<-|[]]. apply tag_at_log.
  - apply reachesLater; [reflexivity|discriminate|].
    intros s' [<-|[]]. apply IH.
Qed.

Lemma tag_at_wait t ls g out :
  waitErr p = None ->
  alwaysReaches p
    (fun s => pc s = pcReturn t None /\
              exists before, logged s = (before ++ [LInfo ("Successfully built " ++ t)])%list)
    {| pc := pcWait; goroutine := (List.map ALog ls ++ ASendTag t :: g)%list;
       logged := out |}.
Proof.
  intros Hw. revert out. induction ls as [|l ls IH]; intros out.
  - apply reachesLater; [reflexivity|discriminate|].
    unfold steps, stepBuild. cbn. rewrite Hw.
    intros s' [<-|[]]. apply (tag_at_recv t [] g out).
  - apply reachesLater; [reflexivity|discriminate|].
    unfold steps, stepBuild. cbn. rewrite Hw.
    intros s' [<-|[<-|[]]]; [apply (tag_at_recv t (l :: ls) g out)|apply IH].
Qed.

Lemma tag_at_start t ls g out :
  startErr p = None -> waitErr p = None ->
  alwaysReaches p
    (fun s => pc s = pcReturn t None /\
              exists before, logged s = (before ++ [LInfo ("Successfully built " ++ t)])%list)
    {| pc := pcStart; goroutine := (List.map ALog ls ++ ASendTag t :: g)%list;
       logged := out |}.
Proof.
  intros Hs Hw. revert out. induction ls as [|l ls IH]; intros out.
  - apply reachesLater; [reflexivity|discriminate|].
    unfold steps, stepBuild. cbn. rewrite Hs.
    intros s' [<-|[]]. apply (tag_at_wait t [] g out Hw).
  - apply reachesLater; [reflexivity|discriminate|].
    unfold steps, stepBuild. cbn. rewrite Hs.
    intros s' [<-|[<-|[]]]; [apply (tag_at_wait t (l :: ls) g out Hw)|apply IH].
Qed.

(** The process cannot be started: [build] returns, whatever the
    goroutine does. *)
Lemma return_at_start e g out :
  startErr p = Some e ->
  alwaysReaches p (fun s => pc s = pcReturn "" (Some e))
    {| pc := pcStart; goroutine := g; logged := out |}.
Proof.
  intros Hs. revert out. induction g as [|a g IH]; intros out.
  - apply reachesLater; [reflexivity|discriminate|].
    unfold steps, stepBuild. cbn. rewrite Hs.
    intros s' [<-|[]]. now apply reachesNow.
  - destruct a as [l|t'|w];
      (apply reachesLater; [reflexivity|discriminate|]);
      unfold steps, stepBuild; cbn; rewrite Hs.
    + intros s' [<-|[<-|[]]]; [now apply reachesNow|apply IH].
    + intros s' [<-|[]]. now apply reachesNow.
    + intros s' [<-|[]]. now apply reachesNow.
Qed.

(** A failed process and a goroutine that is to send a tag: [build] waits
    for the window and the goroutine for the receiver of its tag. *)
Lemma blocked_on_tag e s s' :
  startErr p = None -> waitErr p = Some e ->
  reachable p s s' ->
  pc s = pcStart \/ pc s = pcWait \/ pc s = pcRecvLastLogs e ->
  (exists ls t g, goroutine s = (List.map ALog ls ++ ASendTag t :: g)%list) ->
  returned s' = false.
Proof.
  intros Hs Hw. induction 1 as [s|s s1 s2 Hin _ IH]; intros Hpc Hg.
  - unfold returned. destruct Hpc as [->|[->| ->]]; reflexivity.
  - destruct Hg as (ls & t & g & Hg).
    apply In_steps in Hin. destruct Hin as [Hin|Hin].
    + unfold stepBuild in Hin. destruct Hpc as [Hpc|[Hpc|Hpc]]; rewrite Hpc in Hin.
      * rewrite Hs in Hin. injection Hin as <-. apply IH; cbn; eauto.
      * rewrite Hw in Hin. injection Hin as <-. apply IH; cbn; eauto.
      * rewrite Hg in Hin. destruct ls; discriminate.
    + unfold stepGoroutine in Hin. rewrite Hg in Hin.
      destruct ls as [|l ls]; [discriminate|]. injection Hin as <-.
      apply IH; cbn; eauto.
Qed.

End Build.

(** X5.  When the process was started and exits cleanly and its output
    makes the goroutine send a tag, [build] returns on every schedule:
    it returns the first tag the goroutine sends, without an error, after
    writing "Successfully built" and the tag to the logger. *)
Theorem clean_build_returns_first_tag
    (SectionPrefix SectionStartingBuild : string) (p : Process)
    (t : string) (rest : list string) :
  pipeErr p = None ->
  startErr p = None ->
  waitErr p = None ->
  tagsOf (scanner SectionPrefix SectionStartingBuild (stdoutLines p)) = t :: rest ->
  alwaysReaches p
    (fun s => pc s = pcReturn t None /\
              exists before, logged s = (before ++ [LInfo ("Successfully built " ++ t)])%list)
    (build SectionPrefix SectionStartingBuild p).
Proof.
  intros Hp Hs Hw Ht. unfold build, buildPipe. rewrite Hp.
  destruct (scanner_first_send _ _ _ _ _ Ht) as (ls & g & ->).
  apply (tag_at_start p t ls g [] Hs Hw).
Qed.

(** A build in which pip reports a wheel before the image is built: the
    tag returned is pip's. *)
Lemma clean_build_returns_first_tag_witness :
  alwaysReaches pipBuild
    (fun s => pc s = pcReturn "numpy" None /\
              exists before, logged s = (before ++ [LInfo ("Successfully built " ++ "numpy")])%list)
    (build "__section__ " "starting build" pipBuild).
Proof.
  exact (clean_build_returns_first_tag "__section__ " "starting build" pipBuild
           "numpy" ["4f5a6b7c8d9e"] eq_refl eq_refl eq_refl eq_refl).
Defined.

(** X6.  When the process was started and exits with a failure after
    output that makes the goroutine send a tag, [build] never returns:
    it waits for the window while the goroutine waits for its tag to be
    received. *)
Theorem failed_build_with_tag_blocks
    (SectionPrefix SectionStartingBuild : string) (p : Process) (e : error)
    (t : string) (rest : list string) (s : System) :
  pipeErr p = None ->
  startErr p = None ->
  waitErr p = Some e ->
  tagsOf (scanner SectionPrefix SectionStartingBuild (stdoutLines p)) = t :: rest ->
  reachable p (build SectionPrefix SectionStartingBuild p) s ->
  returned s = false.
Proof.
  intros Hp Hs Hw Ht Hr. unfold build, buildPipe in Hr. rewrite Hp in Hr.
  destruct (scanner_first_send _ _ _ _ _ Ht) as (ls & g & Hg). rewrite Hg in Hr.
  apply (blocked_on_tag p e _ s Hs Hw Hr); cbn; eauto.
Qed.

(** A build that fails after pip has built a wheel. *)
Lemma failed_build_with_tag_blocks_witness :
  returned (run failedPipBuild 20 (build "__section__ " "starting build" failedPipBuild))
    = false.
Proof.
  exact (failed_build_with_tag_blocks "__section__ " "starting build" failedPipBuild
           (ExitError "exit status 1" "") "numpy" []
           (run failedPipBuild 20 (build "__section__ " "starting build" failedPipBuild))
           eq_refl eq_refl eq_refl eq_refl
           (reachable_run failedPipBuild 20 _)).
Defined.

(** The clean build without a success marker: it has not returned after
    any number of steps. *)
Lemma clean_exit_without_tag_never_returns_witness :
  returned (run cleanBuild 20 (build "__section__ " "starting build" cleanBuild)) = false.
Proof.
  exact (publisher.clean_exit_without_tag_never_returns
           "__section__ " "starting build" cleanBuild
           (run cleanBuild 20 (build "__section__ " "starting build" cleanBuild))
           eq_refl eq_refl eq_refl eq_refl
           (reachable_run cleanBuild 20 _)).
Defined.

(** X8.  When the pipe cannot be made or the process cannot be started,
    [build] returns that error and no tag on every schedule, whatever the
    goroutine reads. *)
Theorem unstarted_build_returns
    (SectionPrefix SectionStartingBuild : string) (p : Process) (e : error) :
  pipeErr p = Some e \/ (pipeErr p = None /\ startErr p = Some e) ->
  alwaysReaches p (fun s => pc s = pcReturn "" (Some e))
    (build SectionPrefix SectionStartingBuild p).
Proof.
  unfold build, buildPipe. intros [Hp|[Hp Hs]]; rewrite Hp.
  - now apply reachesNow.
  - apply (return_at_start p e _ [] Hs).
Qed.

(** [docker] is not installed. *)
Lemma unstarted_build_returns_witness :
  alwaysReaches unstartedBuild
    (fun s => pc s = pcReturn "" (Some (errorString "exec: docker: executable file not found in $PATH")))
    (build "__section__ " "starting build" unstartedBuild).
Proof.
  exact (unstarted_build_returns "__section__ " "starting build" unstartedBuild
           (errorString "exec: docker: executable file not found in $PATH")
           (or_intror (conj eq_refl eq_refl))).
Defined.

End builds.

Module publishing.
Import strings strings_facts docker examples.

Lemma pipe_clean (lines : list string) (out : list LogLine) :
  Forall (fun l => Contains l daemonDown = false /\ Contains l grpcUpgrade = false) lines ->
  pipeToWithDockerChecks lines out = (None, (out ++ List.map LInfo lines)%list).
Proof.
  intros H. revert out. induction H as [|l lines [Hd Hg] _ IH]; intros out.
  - simpl. now rewrite app_nil_r.
  - cbn [pipeToWithDockerChecks]. unfold dockerCheck. rewrite Hd, Hg, IH.
    now rewrite <- app_assoc.
Qed.

Lemma pipe_fatal (before : list string) (bad : string) (after : list string)
    (out : list LogLine) :
  Forall (fun l => Contains l daemonDown = false /\ Contains l grpcUpgrade = false) before ->
  Contains bad daemonDown = true \/ Contains bad grpcUpgrade = true ->
  exists message,
    pipeToWithDockerChecks (before ++ bad :: after) out =
      (Some message, (out ++ List.map LInfo before)%list).
Proof.
  intros H Hb. revert out. induction H as [|l lines [Hd Hg] _ IH]; intros out.
  - cbn [app pipeToWithDockerChecks]. unfold dockerCheck. rewrite app_nil_r.
    destruct (Contains bad daemonDown); [eauto|].
    destruct Hb as [Hb|Hb]; [discriminate|]. rewrite Hb. eauto.
  - cbn [app pipeToWithDockerChecks]. unfold dockerCheck. rewrite Hd, Hg.
    destruct (IH (out ++ [LInfo l])%list) as [m Hm]. exists m. rewrite Hm.
    now rewrite <- app_assoc.
Qed.

(** X9.  [push] writes the lines of the standard error of [docker push]
    to the logger and returns the error of [cmd.Run] as long as no line
    has one of the two daemon messages; at the first line that has one it
    ends in a fatal condition: the lines before it are in the log, the
    line, the lines after it and the result of [docker push] are not. *)
Theorem push_stops_at_daemon_error (tagName : string) (runErr : option error) :
  (forall lines,
      Forall (fun l => Contains l daemonDown = false /\ Contains l grpcUpgrade = false) lines ->
      push tagName None lines runErr =
        (Returned runErr,
         LInfo ("Pushing " ++ tagName ++ " to registry") :: List.map LInfo lines)) /\
  (forall before bad after,
      Forall (fun l => Contains l daemonDown = false /\ Contains l grpcUpgrade = false) before ->
      Contains bad daemonDown = true \/ Contains bad grpcUpgrade = true ->
      exists message,
        push tagName None (before ++ bad :: after) runErr =
          (Fatal message,
           LInfo ("Pushing " ++ tagName ++ " to registry") :: List.map LInfo before)).
Proof.
  split.
  - intros lines H. unfold push. now rewrite (pipe_clean lines _ H).
  - intros before bad after H Hb. unfold push.
    destruct (pipe_fatal before bad after
                [LInfo ("Pushing " ++ tagName ++ " to registry")] H Hb) as [m Hm].
    exists m. now rewrite Hm.
Qed.

(** The daemon is not running. *)
Lemma push_stops_at_daemon_error_witness :
  exists message,
    push "r8.im/model:abc" None
      (["The push refers to repository r8.im/model"]
       ++ "Cannot connect to the Docker daemon at unix:///var/run/docker.sock"
       :: ["Is the docker daemon running?"])
      (Some (ExitError "exit status 1" "")) =
      (Fatal message,
       LInfo ("Pushing " ++ "r8.im/model:abc" ++ " to registry")
       :: List.map LInfo ["The push refers to repository r8.im/model"]).
Proof.
  exact (proj2 (push_stops_at_daemon_error "r8.im/model:abc"
                  (Some (ExitError "exit status 1" "")))
           ["The push refers to repository r8.im/model"]
           "Cannot connect to the Docker daemon at unix:///var/run/docker.sock"
           ["Is the docker daemon running?"]
           ltac:(repeat constructor) (or_introl eq_refl)).
Defined.

(** X10.  A builder made without a registry (or for the registry
    [no_registry]) never pushes: [BuildAndPush] writes nothing to the
    logger and its outcome does not depend on what a push would meet;
    once the image is built and tagged it returns
    [no_registry/name:tag]. *)
Theorem no_registry_never_pushes (reg name : string)
    (built : string * option error) (tagOutput : option error)
    (stderrPipe : option error) (stderrLines : list string) (runErr : option error) :
  reg = "" \/ reg = noRegistry ->
  BuildAndPush (NewLocalImageBuilder reg) name built tagOutput
    stderrPipe stderrLines runErr =
  BuildAndPush (NewLocalImageBuilder reg) name built tagOutput None [] None /\
  snd (BuildAndPush (NewLocalImageBuilder reg) name built tagOutput
         stderrPipe stderrLines runErr) = [] /\
  (snd built = None -> tagOutput = None ->
   fst (BuildAndPush (NewLocalImageBuilder reg) name built tagOutput
          stderrPipe stderrLines runErr) =
     Returned ("no_registry/" ++ name ++ ":" ++ fst built, None)).
Proof.
  intros Hreg.
  assert (Hb : NewLocalImageBuilder reg = {| registry := noRegistry |})
    by (destruct Hreg as [->| ->]; reflexivity).
  rewrite Hb. unfold BuildAndPush. destruct built as [t [e|]]; cbn [fst snd].
  - repeat split; try reflexivity. discriminate.
  - destruct (tag t _ tagOutput) as [[e|]|r|m] eqn:Et; cbn.
    + repeat split; try reflexivity. intros _ ->. discriminate Et.
    + repeat split; reflexivity.
    + repeat split; try reflexivity. intros _ ->. discriminate Et.
    + repeat split; try reflexivity. intros _ ->. discriminate Et.
Qed.

(** A builder without a registry, a tagged image. *)
Lemma no_registry_never_pushes_witness :
  fst (BuildAndPush (NewLocalImageBuilder "") "model" ("4f5a6b7c8d9e", None) None
         None ["denied"] (Some (ExitError "exit status 1" ""))) =
    Returned ("no_registry/" ++ "model" ++ ":" ++ "4f5a6b7c8d9e", None).
Proof.
  exact (proj2 (proj2 (no_registry_never_pushes "" "model" ("4f5a6b7c8d9e", None) None
                         None ["denied"] (Some (ExitError "exit status 1" ""))
                         (or_introl eq_refl)))
           eq_refl eq_refl).
Defined.

(** X11.  [BuildAndPush] returns an error with an empty image tag, or no
    error with [registry/name:tag], where the tag is the one [build]
    returned and the registry is not empty; it returns no error only if
    [build] and [docker tag] succeeded and, for a builder with a registry,
    after [push] has announced exactly that image tag in the log. *)
Theorem BuildAndPush_result (reg name : string)
    (built : string * option error) (tagOutput : option error)
    (stderrPipe : option error) (stderrLines : list string) (runErr : option error)
    (full : string) (err : option error) (log : list LogLine) :
  BuildAndPush (NewLocalImageBuilder reg) name built tagOutput
    stderrPipe stderrLines runErr = (Returned (full, err), log) ->
  (err <> None /\ full = "") \/
  (err = None /\
   snd built = None /\ tagOutput = None /\
   registry (NewLocalImageBuilder reg) <> "" /\
   full = registry (NewLocalImageBuilder reg) ++ "/" ++ name ++ ":" ++ fst built /\
   ((reg = "" \/ reg = noRegistry) /\ log = [] \/
    (reg <> "" /\ reg <> noRegistry /\ runErr = None /\
     exists rest, log = LInfo ("Pushing " ++ full ++ " to registry") :: rest))).
Proof.
  assert (Hout : forall lines o0 f o1,
             pipeToWithDockerChecks lines o0 = (f, o1) ->
             exists more, o1 = (o0 ++ more)%list).
  { induction lines as [|l lines IH]; intros o0 f0 o1; cbn [pipeToWithDockerChecks].
    - intros [= _ <-]. exists []. now rewrite app_nil_r.
    - destruct (dockerCheck l) as [fatal|ll].
      + intros [= _ <-]. exists []. now rewrite app_nil_r.
      + intros H. apply IH in H. destruct H as [more ->].
        exists (ll :: more). now rewrite <- app_assoc. }
  unfold BuildAndPush, fullImageTagOf, NewLocalImageBuilder. cbn [registry fst snd].
  destruct built as [t [e|]].
  { intros [= <- <- <-]. left. split; [discriminate|reflexivity]. }
  destruct tagOutput as [[st se|m]|]; cbn [tag fst snd].
  { intros [= <- <- <-]. left. split; [discriminate|reflexivity]. }
  { discriminate. }
  destruct (String.eqb_spec reg "") as [->|Hne].
  - cbn. intros [= <- <- <-]. right. repeat split; try discriminate. left. split; auto.
  - destruct (String.eqb_spec reg noRegistry) as [->|Hnr]; cbn [negb].
    + intros [= <- <- <-]. right. repeat split; try assumption. left. split; auto.
    + unfold push. destruct stderrPipe as [pe|].
      { intros [= <- <- <-]. left. split; [discriminate|reflexivity]. }
      destruct (pipeToWithDockerChecks stderrLines _) as [[f|] out] eqn:Ep; [discriminate|].
      destruct runErr as [re|].
      { intros [= <- <- <-]. left. split; [discriminate|reflexivity]. }
      intros [= <- <- <-]. right. repeat split; try assumption. right.
      repeat split; try assumption.
      destruct (Hout _ _ _ _ Ep) as [more ->]. exists more. reflexivity.
Qed.

(** A build for a registry: the image tag is announced and returned. *)
Lemma BuildAndPush_result_witness :
  (@None error <> None /\ "r8.im/model:4f5a6b7c8d9e" = "") \/
  (@None error = None /\
   snd ("4f5a6b7c8d9e", @None error) = None /\ @None error = None /\
   registry (NewLocalImageBuilder "r8.im") <> "" /\
   "r8.im/model:4f5a6b7c8d9e" =
     registry (NewLocalImageBuilder "r8.im") ++ "/" ++ "model" ++ ":"
     ++ fst ("4f5a6b7c8d9e", @None error) /\
   (("r8.im" = "" \/ "r8.im" = noRegistry) /\
    [LInfo "Pushing r8.im/model:4f5a6b7c8d9e to registry"; LInfo "latest: digest: sha256:00 size: 1"] = [] \/
    ("r8.im" <> "" /\ "r8.im" <> noRegistry /\ @None error = None /\
     exists rest,
       [LInfo "Pushing r8.im/model:4f5a6b7c8d9e to registry"; LInfo "latest: digest: sha256:00 size: 1"] =
       LInfo ("Pushing " ++ "r8.im/model:4f5a6b7c8d9e" ++ " to registry") :: rest))).
Proof.
  exact (BuildAndPush_result "r8.im" "model" ("4f5a6b7c8d9e", None) None None
           ["latest: digest: sha256:00 size: 1"] None
           "r8.im/model:4f5a6b7c8d9e" None
           [LInfo "Pushing r8.im/model:4f5a6b7c8d9e to registry";
            LInfo "latest: digest: sha256:00 size: 1"]
           eq_refl).
Defined.

End publishing.

(* ===================================================================== *)
(** * More on the serving session                                         *)
(* ===================================================================== *)

Module inference.
Import strings strings_facts serving_facts examples.

(** The encoding reads the file system only. *)
Lemma encodeFields_fs (w w' : serving.World) fields body opened :
  (forall path, serving.fs w' path = serving.fs w path) ->
  serving.encodeFields w' fields body opened = serving.encodeFields w fields body opened.
Proof.
  intros Hfs. revert body opened. induction fields as [|[key val] rest IH]; intros body opened.
  - reflexivity.
  - cbn [serving.encodeFields].
    assert (He : serving.encodeField w' key val opened = serving.encodeField w key val opened).
    { unfold serving.encodeField. destruct (serving.File val); [|reflexivity].
      now rewrite Hfs. }
    rewrite He. destruct (serving.encodeField w key val opened) as [[[part|err]|r|m] o1];
      try reflexivity. apply IH.
Qed.

(** Values with a pointer set are encoded, or fail with an error. *)
Lemma encodeFields_no_panic (w : serving.World) fields body opened :
  Forall (fun kv : string * serving.ExampleValue => serving.exactlyOne (snd kv) = true) fields ->
  exists r opened', serving.encodeFields w fields body opened = (Returned r, opened').
Proof.
  intros H. revert body opened. induction H as [|[key val] rest Hv _ IH]; intros body opened.
  - simpl. eauto.
  - cbn [serving.encodeFields]. cbn [snd] in Hv.
    assert (He : exists r o1, serving.encodeField w key val opened = (Returned r, o1)).
    { unfold serving.encodeField. unfold serving.exactlyOne in Hv.
      destruct (serving.File val) as [path|].
      - destruct (serving.fs w path) as [err|data [re|] [ce|]]; eauto.
      - destruct (serving.String val); [eauto|discriminate]. }
    destruct He as ([part|err] & o1 & ->); [apply IH|eauto].
Qed.

(** X12.  [RunInference] on the fields of an example made by [NewExample]
    or by [NewExampleWithBaseDir] never panics: each value has a pointer
    to dereference. *)
Theorem constructed_example_never_panics
    (w : serving.World) (d : serving.LocalDockerDeployment)
    (keyVals : gmap string string) (baseDir : string)
    (fields : list (string * serving.ExampleValue)) :
  serving.rangeOf (serving.NewExample keyVals) fields \/
  serving.rangeOf (serving.NewExampleWithBaseDir keyVals baseDir) fields ->
  exists r eff, serving.RunInference w d fields = (Returned r, eff).
Proof.
  intros Hrange.
  assert (Hall : Forall (fun kv : string * serving.ExampleValue =>
                           serving.exactlyOne (snd kv) = true) fields).
  { apply Forall_forall. intros [key v] Hin. cbn [snd].
    unfold serving.rangeOf in Hrange. destruct Hrange as [Hp|Hp];
      rewrite Hp in Hin; apply elem_of_map_to_list in Hin.
    - rewrite session.NewExample_lookup in Hin.
      destruct (keyVals !! key) as [val|]; [|discriminate].
      injection Hin as <-. unfold serving.newValue.
      destruct (HasPrefix val "@"); reflexivity.
    - rewrite session.NewExampleWithBaseDir_lookup in Hin.
      destruct (keyVals !! key) as [val|]; [|discriminate].
      injection Hin as <-. unfold serving.newValueWithBaseDir.
      destruct (HasPrefix val "@"); reflexivity. }
  unfold serving.RunInference.
  destruct (encodeFields_no_panic w fields [] [] Hall) as ([body|err] & opened & ->); eauto.
  destruct (serving.roundTrip w _) as [resp|err]; eauto.
  destruct (negb (serving.StatusCode resp =? serving.StatusOK)); eauto.
  destruct (serving.decode resp _) as [r eff']. eauto.
Qed.

(** The example made from one inline value. *)
Lemma constructed_example_never_panics_witness :
  exists r eff,
    serving.RunInference world deployment
      (map_to_list (serving.Values (serving.NewExample {[ "text" := "hello" ]})))
    = (Returned r, eff).
Proof.
  exact (constructed_example_never_panics world deployment {[ "text" := "hello" ]} ""
           (map_to_list (serving.Values (serving.NewExample {[ "text" := "hello" ]})))
           (or_introl (reflexivity _))).
Defined.

(** X13.  When the response reports no setup time and no run time (the
    headers are absent or empty), the call succeeds with both times at
    the sentinel -1 and reports nothing on the console. *)
Theorem absent_timings_are_sentinels
    (w : serving.World) (d : serving.LocalDockerDeployment)
    (fields : list (string * serving.ExampleValue))
    (body : list serving.Part) (opened : list string)
    (resp : serving.Response) (buf : string) :
  serving.encodeFields w fields [] [] = (Returned (inl body), opened) ->
  serving.roundTrip w
    {| serving.Method := "POST";
       serving.URL := "http://localhost:" ++ itoa (serving.port d) ++ "/infer";
       serving.Body := body |} = inl resp ->
  serving.StatusCode resp = serving.StatusOK ->
  serving.ResponseBody resp = (buf, None) ->
  serving.Get (serving.Header resp) "X-Setup-Time" = "" ->
  serving.Get (serving.Header resp) "X-Run-Time" = "" ->
  exists res,
    serving.RunInference w d fields = (Returned (inl res), serving.noEffects) /\
    serving.SetupTime res = strconv.ofZ (-1) /\
    serving.RunTime res = strconv.ofZ (-1).
Proof.
  intros HE HR HS HB Hs Hr.
  destruct (encodeFields_ok _ _ _ _ _ _ HE) as [-> _].
  unfold serving.RunInference. rewrite HE, HR, HS. cbn [Z.eqb negb].
  unfold serving.decode, serving.timing. rewrite HB, Hs, Hr. cbn.
  eexists. split; [reflexivity|]. split; reflexivity.
Qed.

(** A container that reports no timings. *)
Lemma absent_timings_are_sentinels_witness :
  exists res,
    serving.RunInference (worldAnswering (inl plainResponse)) deployment
      [("text", textField "hello")] = (Returned (inl res), serving.noEffects) /\
    serving.SetupTime res = strconv.ofZ (-1) /\
    serving.RunTime res = strconv.ofZ (-1).
Proof.
  exact (absent_timings_are_sentinels (worldAnswering (inl plainResponse)) deployment
           [("text", textField "hello")]
           [{| serving.FormName := "text"; serving.FileName := None; serving.Data := "hello" |}]
           [] plainResponse "hello"
           eq_refl eq_refl eq_refl eq_refl
           ltac:(vm_compute; reflexivity) ltac:(vm_compute; reflexivity)).
Defined.

(** X14.  When a referenced file cannot be opened, after fields that
    were encoded, the call returns the error of [os.Open] whatever the
    container would answer: nothing is sent, nothing is written to the
    logger and no file is left open. *)
Theorem unopenable_file_fails_before_request
    (w : serving.World) (d : serving.LocalDockerDeployment)
    (before after : list (string * serving.ExampleValue))
    (body : list serving.Part) (opened : list string)
    (key : string) (val : serving.ExampleValue) (path : string) (err : error)
    (answer : serving.Request -> serving.Response + error)
    (output : string + error) :
  serving.encodeFields w before [] [] = (Returned (inl body), opened) ->
  serving.File val = Some path ->
  serving.fs w path = serving.CannotOpen err ->
  serving.RunInference
    {| serving.fs := serving.fs w; serving.roundTrip := answer;
       serving.containerLogs := output |}
    d (before ++ (key, val) :: after) = (Returned (inr err), serving.noEffects).
Proof.
  intros HE HF HO. unfold serving.RunInference.
  rewrite (encodeFields_fs w
             {| serving.fs := serving.fs w; serving.roundTrip := answer;
                serving.containerLogs := output |} _ _ _ (fun _ => eq_refl)).
  rewrite (encodeFields_app _ _ _ _ _ _ _ HE).
  destruct (encodeFields_ok _ _ _ _ _ _ HE) as [-> _].
  cbn [serving.encodeFields]. unfold serving.encodeField. rewrite HF, HO. reflexivity.
Qed.

(** A reference to a file that does not exist. *)
Lemma unopenable_file_fails_before_request_witness :
  serving.RunInference
    {| serving.fs := serving.fs world;
       serving.roundTrip := fun _ => inl plainResponse;
       serving.containerLogs := inl "" |}
    deployment
    ([("text", textField "hello")] ++ ("image", fileField "/nowhere") :: []) =
    (Returned (inr (errorString "open /nowhere: no such file or directory")),
     serving.noEffects).
Proof.
  exact (unopenable_file_fails_before_request world deployment
           [("text", textField "hello")] []
           [{| serving.FormName := "text"; serving.FileName := None; serving.Data := "hello" |}]
           [] "image" (fileField "/nowhere") "/nowhere"
           (errorString "open /nowhere: no such file or directory")
           (fun _ => inl plainResponse) (inl "")
           eq_refl eq_refl eq_refl).
Defined.

(** X15.  When the request cannot be made, or is answered with a status
    other than 200, the call fails with a message that names the failure
    (the status code, in decimal) and writes the container's logs to the
    logger, once. *)
Theorem failed_request_writes_container_logs
    (w : serving.World) (d : serving.LocalDockerDeployment)
    (fields : list (string * serving.ExampleValue))
    (body : list serving.Part) (opened : list string) :
  serving.encodeFields w fields [] [] = (Returned (inl body), opened) ->
  (forall err,
      serving.roundTrip w
        {| serving.Method := "POST";
           serving.URL := "http://localhost:" ++ itoa (serving.port d) ++ "/infer";
           serving.Body := body |} = inr err ->
      serving.RunInference w d fields =
        (Returned (inr (errorString
           ("Failed to POST HTTP request to http://localhost:" ++ itoa (serving.port d)
            ++ "/infer: " ++ Error err))),
         {| serving.openFiles := []; serving.logs := [serving.writeContainerLogs w];
            serving.console := [] |})) /\
  (forall resp,
      serving.roundTrip w
        {| serving.Method := "POST";
           serving.URL := "http://localhost:" ++ itoa (serving.port d) ++ "/infer";
           serving.Body := body |} = inl resp ->
      serving.StatusCode resp <> serving.StatusOK ->
      serving.RunInference w d fields =
        (Returned (inr (errorString
           ("/infer call returned status " ++ itoa (serving.StatusCode resp)))),
         {| serving.openFiles := []; serving.logs := [serving.writeContainerLogs w];
            serving.console := [] |})).
Proof.
  intros HE. destruct (encodeFields_ok _ _ _ _ _ _ HE) as [-> _]. split.
  - intros err HR. unfold serving.RunInference. rewrite HE, HR.
    now rewrite !append_assoc.
  - intros resp HR HS. unfold serving.RunInference. rewrite HE, HR.
    apply Z.eqb_neq in HS. rewrite HS. reflexivity.
Qed.

(** The container answers 500. *)
Lemma failed_request_writes_container_logs_witness :
  serving.RunInference
    (worldAnswering (inl {| serving.StatusCode := 500; serving.Header := ∅;
                            serving.ResponseBody := ("", None) |}))
    deployment [("text", textField "hello")] =
    (Returned (inr (errorString ("/infer call returned status " ++ itoa 500))),
     {| serving.openFiles := [];
        serving.logs := [LInfo "Traceback (most recent call last)"];
        serving.console := [] |}).
Proof.
  exact (proj2 (failed_request_writes_container_logs
                  (worldAnswering (inl {| serving.StatusCode := 500; serving.Header := ∅;
                                          serving.ResponseBody := ("", None) |}))
                  deployment [("text", textField "hello")]
                  [{| serving.FormName := "text"; serving.FileName := None;
                      serving.Data := "hello" |}] [] eq_refl)
           {| serving.StatusCode := 500; serving.Header := ∅;
              serving.ResponseBody := ("", None) |}
           eq_refl ltac:(discriminate)).
Defined.

(** X16.  When reading the body of a response with status 200 fails, the
    call fails with "Failed to read response" and the error of the read:
    what was read is dropped, the timing headers are not looked at, and
    the container's logs are not written. *)
Theorem unread_body_fails_without_logs
    (w : serving.World) (d : serving.LocalDockerDeployment)
    (fields : list (string * serving.ExampleValue))
    (body : list serving.Part) (opened : list string)
    (resp : serving.Response) (partial : string) (err : error) :
  serving.encodeFields w fields [] [] = (Returned (inl body), opened) ->
  serving.roundTrip w
    {| serving.Method := "POST";
       serving.URL := "http://localhost:" ++ itoa (serving.port d) ++ "/infer";
       serving.Body := body |} = inl resp ->
  serving.StatusCode resp = serving.StatusOK ->
  serving.ResponseBody resp = (partial, Some err) ->
  serving.RunInference w d fields =
    (Returned (inr (errorString ("Failed to read response: " ++ Error err))),
     serving.noEffects).
Proof.
  intros HE HR HS HB. destruct (encodeFields_ok _ _ _ _ _ _ HE) as [-> _].
  unfold serving.RunInference. rewrite HE, HR, HS. cbn [Z.eqb negb].
  unfold serving.decode. rewrite HB. reflexivity.
Qed.

(** The connection is reset in the middle of the body. *)
Lemma unread_body_fails_without_logs_witness :
  serving.RunInference
    (worldAnswering (inl {| serving.StatusCode := 200;
                            serving.Header := {[ "X-Run-Time" := ["oops"] ]};
                            serving.ResponseBody :=
                              ("PN", Some (errorString "unexpected EOF")) |}))
    deployment [("text", textField "hello")] =
    (Returned (inr (errorString ("Failed to read response: " ++ "unexpected EOF"))),
     serving.noEffects).
Proof.
  exact (unread_body_fails_without_logs
           (worldAnswering (inl {| serving.StatusCode := 200;
                                   serving.Header := {[ "X-Run-Time" := ["oops"] ]};
                                   serving.ResponseBody :=
                                     ("PN", Some (errorString "unexpected EOF")) |}))
           deployment [("text", textField "hello")]
           [{| serving.FormName := "text"; serving.FileName := None;
               serving.Data := "hello" |}] []
           _ "PN" (errorString "unexpected EOF")
           eq_refl eq_refl eq_refl eq_refl).
Defined.

(** A file and a text sent to the container of the examples. *)
Lemma encoded_parts_witness :
  serving.openFiles inferredEffects = [] /\
  exists body resp,
    serving.roundTrip world
      {| serving.Method := "POST";
         serving.URL := "http://localhost:" ++ itoa (serving.port deployment) ++ "/infer";
         serving.Body := body |} = inl resp /\
    Forall2 (serving.partFor world)
      [("image", fileField "/tmp/x"); ("text", textField "hello")] body.
Proof.
  exact (session.encoded_parts world deployment
           [("image", fileField "/tmp/x"); ("text", textField "hello")]
           inferred inferredEffects ltac:(vm_compute; reflexivity)).
Defined.

End inference.

(* ===================================================================== *)
(** * More on deployment                                                  *)
(* ===================================================================== *)

Module deployment.
Import strings strings_facts serving_facts examples.

(** X17.  When, after iterations at which the container was still
    starting, an iteration begins within the deadline, finds the
    container neither exited nor dead and gets status 200 from the
    liveness request, the poll returns without an error at that
    iteration. *)
Theorem ready_container_ends_poll
    (StartupTimeout : Z) (before : list serving.Poll) (p : serving.Poll)
    (after : list serving.Poll) (state : option string) :
  Forall (serving.stillStarting StartupTimeout) before ->
  serving.elapsed p <= StartupTimeout ->
  serving.inspect p = inr state ->
  serving.exitedOrDead state = false ->
  serving.ping p = inr serving.StatusOK ->
  serving.waitForContainerReady StartupTimeout (before ++ p :: after) = Some None.
Proof.
  intros Hb Ht Hi He Hp. rewrite (waitForContainerReady_stillStarting _ _ _ Hb).
  cbn [serving.waitForContainerReady]. unfold serving.pollOnce.
  destruct (Z.ltb_spec StartupTimeout (serving.elapsed p)); [lia|].
  rewrite Hi, He, Hp. reflexivity.
Qed.

(** The container answers at its third poll. *)
Lemma ready_container_ends_poll_witness :
  serving.waitForContainerReady fiveMinutes
    ([running 0; running 150000000] ++ ready 300000000 :: [exited 450000000]) = Some None.
Proof.
  refine (ready_container_ends_poll fiveMinutes [running 0; running 150000000]
            (ready 300000000) [exited 450000000] (Some "running") _ _ eq_refl eq_refl eq_refl).
  - repeat constructor; apply session.running_stillStarting; unfold fiveMinutes; lia.
  - unfold fiveMinutes. simpl. lia.
Defined.

(** X18.  The poll reports a timeout at the first iteration that begins
    after the deadline, when the container was still starting at the
    iterations before; and it never reports a timeout before the
    deadline: when it does report one, an iteration began after it. *)
Theorem poll_times_out_after_deadline (StartupTimeout : Z) :
  (forall before p after,
      Forall (serving.stillStarting StartupTimeout) before ->
      StartupTimeout < serving.elapsed p ->
      serving.waitForContainerReady StartupTimeout (before ++ p :: after) =
        Some (Some (errorString "Timed out"))) /\
  (forall polls,
      serving.waitForContainerReady StartupTimeout polls =
        Some (Some (errorString "Timed out")) ->
      exists p, In p polls /\ StartupTimeout < serving.elapsed p).
Proof.
  split.
  - intros before p after Hb Ht. rewrite (waitForContainerReady_stillStarting _ _ _ Hb).
    cbn [serving.waitForContainerReady]. unfold serving.pollOnce.
    destruct (Z.ltb_spec StartupTimeout (serving.elapsed p)); [reflexivity|lia].
  - induction polls as [|p rest IH]; cbn [serving.waitForContainerReady]; [discriminate|].
    destruct (serving.pollOnce StartupTimeout p) as [r|] eqn:E.
    + intros [= ->]. exists p. split; [now left|].
      unfold serving.pollOnce in E.
      destruct (Z.ltb_spec StartupTimeout (serving.elapsed p)); [assumption|].
      destruct (serving.inspect p) as [err|state]; [discriminate|].
      destruct (serving.exitedOrDead state); [discriminate|].
      destruct (serving.ping p) as [err|code]; [discriminate|].
      destruct (code =? serving.StatusOK); discriminate.
    + intros H. destruct (IH H) as (q & Hin & Hq). exists q. split; [now right|assumption].
Qed.

(** A container that is still starting after five minutes. *)
Lemma poll_times_out_after_deadline_witness :
  serving.waitForContainerReady fiveMinutes
    ([running 0; running 299900000000] ++ running 300000000001 :: []) =
    Some (Some (errorString "Timed out")).
Proof.
  refine (proj1 (poll_times_out_after_deadline fiveMinutes)
            [running 0; running 299900000000] (running 300000000001) [] _ _).
  - repeat constructor; apply session.running_stillStarting; unfold fiveMinutes; lia.
  - unfold fiveMinutes. simpl. lia.
Defined.

(** X19.  When the engine cannot inspect the container at an iteration
    that begins within the deadline, after iterations at which the
    container was still starting, the poll fails at once with "Failed to
    get container status" and the engine's error, whatever the liveness
    request would answer. *)
Theorem uninspectable_container_fails_poll
    (StartupTimeout : Z) (before : list serving.Poll) (p : serving.Poll)
    (after : list serving.Poll) (err : error) :
  Forall (serving.stillStarting StartupTimeout) before ->
  serving.elapsed p <= StartupTimeout ->
  serving.inspect p = inl err ->
  serving.waitForContainerReady StartupTimeout (before ++ p :: after) =
    Some (Some (errorString ("Failed to get container status: " ++ Error err))).
Proof.
  intros Hb Ht Hi. rewrite (waitForContainerReady_stillStarting _ _ _ Hb).
  cbn [serving.waitForContainerReady]. unfold serving.pollOnce.
  destruct (Z.ltb_spec StartupTimeout (serving.elapsed p)); [lia|].
  rewrite Hi. reflexivity.
Qed.

(** The container was removed while it was starting. *)
Lemma uninspectable_container_fails_poll_witness :
  serving.waitForContainerReady fiveMinutes
    ([running 0] ++ uninspectable 150000000 :: [ready 300000000]) =
    Some (Some (errorString
      ("Failed to get container status: "
       ++ Error (errorString "No such container: c0ffee")))).
Proof.
  refine (uninspectable_container_fails_poll fiveMinutes [running 0]
            (uninspectable 150000000) [ready 300000000]
            (errorString "No such container: c0ffee") _ _ eq_refl).
  - repeat constructor; apply session.running_stillStarting; unfold fiveMinutes; lia.
  - unfold fiveMinutes. simpl. lia.
Defined.

(** A poll with a deadline of a quarter of a second has returned within
    four iterations. *)
Lemma waitForContainerReady_returns_witness :
  serving.waitForContainerReady 250000000
    (running 0 :: [running 100000000; running 200000000; running 300000000]) <> None.
Proof.
  refine (waitForContainerReady_returns 250000000 3 (running 0)
            [running 100000000; running 200000000; running 300000000] _ _ _).
  - simpl. lia.
  - simpl. lia.
  - simpl. lia.
Defined.

(** X21.  [Deploy] returns a deployment only when the artifact was found,
    the image was present or could be pulled, a free port was found, the
    container was created and started, and the readiness poll returned
    without an error; the deployment has the port found and the identifier
    of the container created, and the image was pulled exactly when it
    was not present, before the container was created and started. *)
Theorem Deploy_succeeds_when_ready
    (StartupTimeout : Z) (h : serving.Host) (artifact : option serving.Artifact)
    (target : string) (dep : serving.Deployed) (d : serving.LocalDockerDeployment) :
  serving.Deploy StartupTimeout h artifact target = Some dep ->
  serving.result dep = inl d ->
  exists a,
    artifact = Some a /\
    (serving.imagePresent h = true \/ serving.pullResult h = None) /\
    serving.freePort h = inl (serving.port d) /\
    serving.created h = inl (serving.containerID d) /\
    serving.started h = None /\
    serving.waitForContainerReady StartupTimeout (serving.observed h) = Some None /\
    serving.calls dep =
      ((if serving.imagePresent h then [] else [serving.CallPull (serving.URI a)])
       ++ [serving.CallCreate (serving.URI a) (serving.port d);
           serving.CallStart (serving.containerID d)])%list.
Proof.
  unfold serving.Deploy. destruct artifact as [a|]; [|intros [= <-]; discriminate].
  intros H Hr. exists a. split; [reflexivity|].
  destruct (serving.imagePresent h) eqn:Ei.
  - destruct (serving.freePort h) as [hostPort|err]; [|injection H as <-; discriminate].
    destruct (serving.created h) as [id|err]; [|injection H as <-; discriminate].
    destruct (serving.started h) as [err|]; [injection H as <-; discriminate|].
    destruct (serving.waitForContainerReady StartupTimeout (serving.observed h))
      as [[err|]|]; [injection H as <-; discriminate| |discriminate].
    injection H as <-. cbn in Hr. injection Hr as <-. cbn. repeat split; auto.
  - destruct (serving.pullResult h) as [err|] eqn:Ep; [injection H as <-; discriminate|].
    destruct (serving.freePort h) as [hostPort|err]; [|injection H as <-; discriminate].
    destruct (serving.created h) as [id|err]; [|injection H as <-; discriminate].
    destruct (serving.started h) as [err|]; [injection H as <-; discriminate|].
    destruct (serving.waitForContainerReady StartupTimeout (serving.observed h))
      as [[err|]|]; [injection H as <-; discriminate| |discriminate].
    injection H as <-. cbn in Hr. injection Hr as <-. cbn. repeat split; auto.
Qed.

(** X22.  When the container was started and the readiness poll fails,
    [Deploy] returns the error of the poll after retrieving the
    container's logs and writing them to the logger; it does not stop the
    container it started. *)
Theorem failed_readiness_leaves_container
    (StartupTimeout : Z) (h : serving.Host) (a : serving.Artifact) (target : string)
    (hostPort : Z) (id : string) (err : error) :
  serving.imagePresent h = true \/ serving.pullResult h = None ->
  serving.freePort h = inl hostPort ->
  serving.created h = inl id ->
  serving.started h = None ->
  serving.waitForContainerReady StartupTimeout (serving.observed h) = Some (Some err) ->
  exists dep,
    serving.Deploy StartupTimeout h (Some a) target = Some dep /\
    serving.result dep = inr err /\
    serving.calls dep =
      ((if serving.imagePresent h then [] else [serving.CallPull (serving.URI a)])
       ++ [serving.CallCreate (serving.URI a) hostPort; serving.CallStart id;
           serving.CallLogs id])%list /\
    ~ In (serving.CallStop id) (serving.calls dep) /\
    serving.written dep =
      [LInfo ("Deploying container " ++ serving.URI a ++ " for target " ++ serving.Target a);
       LInfo "Waiting for model container to become accessible";
       serving.writeContainerLogs (serving.against h)].
Proof.
  intros Hi Hf Hc Hs Hw. unfold serving.Deploy. rewrite Hf, Hc, Hs, Hw.
  destruct (serving.imagePresent h) eqn:Ei.
  - eexists. split; [reflexivity|]. cbn. split; [reflexivity|]. split; [reflexivity|].
    split; [|reflexivity]. intros [H|[H|[H|[]]]]; discriminate.
  - destruct Hi as [Hi|Hi]; [discriminate|]. rewrite Hi.
    eexists. split; [reflexivity|]. cbn. split; [reflexivity|]. split; [reflexivity|].
    split; [|reflexivity]. intros [H|[H|[H|[H|[]]]]]; discriminate.
Qed.

(** The image is pulled, the container starts and is found exited at its
    second poll. *)
Lemma failed_readiness_leaves_container_witness :
  exists dep,
    serving.Deploy fiveMinutes (hostObserving [running 0; exited 150000000])
      (Some cpuArtifact) "docker-cpu" = Some dep /\
    serving.result dep = inr (errorString "Container exited unexpectedly") /\
    serving.calls dep =
      ((if serving.imagePresent (hostObserving [running 0; exited 150000000])
        then [] else [serving.CallPull (serving.URI cpuArtifact)])
       ++ [serving.CallCreate (serving.URI cpuArtifact) 5001; serving.CallStart "c0ffee";
           serving.CallLogs "c0ffee"])%list /\
    ~ In (serving.CallStop "c0ffee") (serving.calls dep) /\
    serving.written dep =
      [LInfo ("Deploying container " ++ serving.URI cpuArtifact ++ " for target "
              ++ serving.Target cpuArtifact);
       LInfo "Waiting for model container to become accessible";
       serving.writeContainerLogs
         (serving.against (hostObserving [running 0; exited 150000000]))].
Proof.
  exact (failed_readiness_leaves_container fiveMinutes
           (hostObserving [running 0; exited 150000000]) cpuArtifact "docker-cpu"
           5001 "c0ffee" (errorString "Container exited unexpectedly")
           (or_intror eq_refl) eq_refl eq_refl eq_refl eq_refl).
Defined.

(** The image is pulled and the container answers at its second poll. *)
Lemma Deploy_succeeds_when_ready_witness :
  exists a,
    Some cpuArtifact = Some a /\
    (serving.imagePresent (hostObserving [running 0; ready 150000000]) = true \/
     serving.pullResult (hostObserving [running 0; ready 150000000]) = None) /\
    serving.freePort (hostObserving [running 0; ready 150000000]) =
      inl (serving.port {| serving.containerID := "c0ffee"; serving.port := 5001 |}) /\
    serving.created (hostObserving [running 0; ready 150000000]) = inl "c0ffee" /\
    serving.started (hostObserving [running 0; ready 150000000]) = None /\
    serving.waitForContainerReady fiveMinutes
      (serving.observed (hostObserving [running 0; ready 150000000])) = Some None /\
    [serving.CallPull "r8.im/model:4f5a6b7c8d9e";
     serving.CallCreate "r8.im/model:4f5a6b7c8d9e" 5001; serving.CallStart "c0ffee"] =
      ((if serving.imagePresent (hostObserving [running 0; ready 150000000])
        then [] else [serving.CallPull (serving.URI a)])
       ++ [serving.CallCreate (serving.URI a) 5001; serving.CallStart "c0ffee"])%list.
Proof.
  exact (Deploy_succeeds_when_ready fiveMinutes
           (hostObserving [running 0; ready 150000000]) (Some cpuArtifact) "docker-cpu"
           {| serving.result := inl {| serving.containerID := "c0ffee"; serving.port := 5001 |};
              serving.calls := [serving.CallPull "r8.im/model:4f5a6b7c8d9e";
                                serving.CallCreate "r8.im/model:4f5a6b7c8d9e" 5001;
                                serving.CallStart "c0ffee"];
              serving.written :=
                [LInfo "Deploying container r8.im/model:4f5a6b7c8d9e for target docker-cpu";
                 LInfo "Waiting for model container to become accessible";
                 LInfo "Got successful ping response from container"] |}
           {| serving.containerID := "c0ffee"; serving.port := 5001 |}
           eq_refl eq_refl).
Defined.

(** X23.  [Help] returns the decoded response only when the request was
    answered with status 200 and the body could be decoded, and then
    writes nothing to the logger; every failure writes the container's
    logs to the logger, once. *)
Theorem Help_logs_its_failures (RunArgument : Type)
    (decodeHelp : string * option error -> serving.HelpResponse RunArgument + error)
    (w : serving.World) (d : serving.LocalDockerDeployment) :
  (forall help log,
      serving.Help RunArgument decodeHelp w d = (inl help, log) ->
      log = [] /\
      exists resp,
        serving.roundTrip w
          {| serving.Method := "GET";
             serving.URL := "http://localhost:" ++ itoa (serving.port d) ++ "/help";
             serving.Body := [] |} = inl resp /\
        serving.StatusCode resp = serving.StatusOK /\
        decodeHelp (serving.ResponseBody resp) = inl help) /\
  (forall err log,
      serving.Help RunArgument decodeHelp w d = (inr err, log) ->
      log = [serving.writeContainerLogs w]).
Proof.
  unfold serving.Help. split.
  - intros help log.
    destruct (serving.roundTrip w _) as [resp|e] eqn:R; [|discriminate].
    destruct (Z.eqb_spec (serving.StatusCode resp) serving.StatusOK) as [Hs|Hs];
      cbn [negb]; [|discriminate].
    destruct (decodeHelp (serving.ResponseBody resp)) as [hp|e] eqn:D; [|discriminate].
    intros [= <- <-]. split; [reflexivity|]. exists resp. auto.
  - intros err log.
    destruct (serving.roundTrip w _) as [resp|e]; [|now intros [= _ <-]].
    destruct (negb (serving.StatusCode resp =? serving.StatusOK)); [now intros [= _ <-]|].
    destruct (decodeHelp (serving.ResponseBody resp)); [discriminate|now intros [= _ <-]].
Qed.

(** A body that is not the JSON the decoder accepts. *)
Lemma Help_logs_its_failures_witness :
  [LInfo "Traceback (most recent call last)"] =
    [serving.writeContainerLogs (worldAnswering (inl plainResponse))].
Proof.
  exact (proj2 (Help_logs_its_failures string decodeEmptyHelp
                  (worldAnswering (inl plainResponse)) deployment)
           (errorString ("Failed to parse /help body: " ++ "invalid character"))
           [LInfo "Traceback (most recent call last)"] eq_refl).
Defined.

End deployment.

(** * The log stream and the lines the scanner yields *)

Module stream_facts.
Import strings strings_facts docker scanner_facts examples.

Lemma segments_nonempty (data : string) : segments data <> [].
Proof.
  destruct data as [|c cs]; cbn [segments]; [discriminate|].
  destruct (isLF c); [discriminate|].
  destruct (segments cs); discriminate.
Qed.

Lemma segments_noLF (a : string) : noLF a = true -> segments a = [a].
Proof.
  induction a as [|c cs IH]; [reflexivity|].
  unfold noLF. cbn [allChars segments]. intros H.
  apply andb_true_iff in H as [Hc Hcs].
  destruct (isLF c); [discriminate|]. now rewrite (IH Hcs).
Qed.

Lemma segments_line (a rest : string) :
  noLF a = true -> segments (a ++ String "010" rest) = a :: segments rest.
Proof.
  induction a as [|c cs IH].
  - reflexivity.
  - unfold noLF. cbn [allChars]. intros H.
    apply andb_true_iff in H as [Hc Hcs].
    cbn [String.append segments].
    destruct (isLF c); [discriminate|]. now rewrite (IH Hcs).
Qed.

Lemma rawLines_line (a rest : string) :
  noLF a = true -> rawLines (a ++ String "010" rest) = a :: rawLines rest.
Proof.
  intros Ha. unfold rawLines. cbn zeta. rewrite (segments_line a rest Ha).
  pose proof (segments_nonempty rest) as Hn.
  destruct (segments rest) as [|e es]; [contradiction|].
  change (List.last (a :: e :: es) "") with (List.last (e :: es) "").
  change (removelast (a :: e :: es)) with (a :: removelast (e :: es)).
  now destruct (List.last (e :: es) "").
Qed.

(** The lines of a stream made of lines are these lines. *)
Lemma rawLines_unlines (lines : list string) :
  forallb noLF lines = true -> rawLines (unlines lines) = lines.
Proof.
  induction lines as [|l ls IH]; [reflexivity|].
  cbn [forallb unlines]. intros H. apply andb_true_iff in H as [Hl Hls].
  now rewrite (rawLines_line l _ Hl), (IH Hls).
Qed.

(** Text without a line feed after the last line feed is a line of its
    own. *)
Lemma rawLines_unlines_rest (lines : list string) (rest : string) :
  forallb noLF lines = true -> noLF rest = true -> rest <> "" ->
  rawLines (unlines lines ++ rest) = (lines ++ [rest])%list.
Proof.
  intros Hl Hr Hne. induction lines as [|l ls IH].
  - cbn [unlines String.append app]. unfold rawLines. cbn zeta.
    rewrite (segments_noLF rest Hr). cbn [List.last].
    destruct rest; [contradiction|reflexivity].
  - cbn [forallb] in Hl. apply andb_true_iff in Hl as [Hl Hls].
    cbn [unlines app]. rewrite append_assoc. cbn [String.append].
    now rewrite (rawLines_line l _ Hl), (IH Hls).
Qed.

Lemma length_replicate (n : nat) (c : ascii) : String.length (replicate n c) = n.
Proof. induction n; cbn [replicate String.length]; congruence. Qed.

Lemma noLF_replicate (n : nat) (c : ascii) :
  isLF c = false -> noLF (replicate n c) = true.
Proof.
  intros Hc. unfold noLF. induction n; cbn [replicate allChars]; [reflexivity|].
  now rewrite Hc, IHn.
Qed.

Lemma dropCR_replicate (n : nat) (c : ascii) :
  isCR c = false -> dropCR (replicate n c) = replicate n c.
Proof.
  intros Hc. induction n as [|k IH]; [reflexivity|].
  cbn [replicate dropCR]. destruct k as [|k].
  - cbn [replicate]. now rewrite Hc.
  - cbn [replicate] in *. now rewrite IH.
Qed.

Lemma fits_replicate (n : nat) (c : ascii) :
  MaxScanTokenSize <= Z.of_nat n -> fits (replicate n c) = false.
Proof.
  intros H. unfold fits. rewrite length_replicate. now apply Z.ltb_ge.
Qed.

Lemma takeFitting_all (lines : list string) :
  forallb fits lines = true -> takeFitting lines = lines.
Proof.
  induction lines as [|l ls IH]; [reflexivity|].
  cbn [forallb takeFitting]. intros H. apply andb_true_iff in H as [Hl Hls].
  now rewrite Hl, (IH Hls).
Qed.

Lemma takeFitting_app (before after : list string) :
  forallb fits before = true ->
  takeFitting (before ++ after) = (before ++ takeFitting after)%list.
Proof.
  induction before as [|l ls IH]; [reflexivity|].
  cbn [forallb takeFitting app]. intros H. apply andb_true_iff in H as [Hl Hls].
  now rewrite Hl, (IH Hls).
Qed.

Lemma Contains_replicate (n : nat) (c d : ascii) (sub : string) :
  Ascii.eqb c d = false -> Contains (replicate n c) (String d sub) = false.
Proof.
  intros Hc. unfold Contains.
  assert (H : Cut (replicate n c) (String d sub) = None); [|now rewrite H].
  induction n as [|k IH]; [reflexivity|].
  rewrite Cut_unfold. cbn [replicate HasPrefix]. rewrite Hc. now rewrite IH.
Qed.

Section Markers.
Variable SectionPrefix : string.

Lemma afterNthMarker_skip (k : nat) (line : string) (rest : list string) :
  isMarker SectionPrefix line = false ->
  afterNthMarker SectionPrefix (S k) (line :: rest) =
  afterNthMarker SectionPrefix (S k) rest.
Proof. intros H. cbn [afterNthMarker]. now rewrite H. Qed.

Lemma afterNthMarker_hit (k : nat) (line : string) (rest : list string) :
  isMarker SectionPrefix line = true ->
  afterNthMarker SectionPrefix (S k) (line :: rest) =
  afterNthMarker SectionPrefix k rest.
Proof. intros H. cbn [afterNthMarker]. now rewrite H. Qed.

End Markers.

(** When every line read from the pipe fits the buffer, the scanner
    yields all of them. *)
Lemma scanned_in_full (p : Pipe) :
  forallb fits (rawLines (delivered p)) = true ->
  scanned p = linesOf (delivered p).
Proof.
  intros Hf. unfold scanned, linesOf. now rewrite (takeFitting_all _ Hf).
Qed.

(** What is read of a pipe up to a line that does not fit. *)
Lemma scanned_up_to (p : Pipe) (before after : list string) :
  rawLines (delivered p) = (before ++ after)%list ->
  forallb fits before = true ->
  match after with [] => True | line :: _ => fits line = false end ->
  scanned p = List.map dropCR before.
Proof.
  intros Hr Hb Ha. unfold scanned. rewrite Hr, (takeFitting_app _ _ Hb).
  destruct after as [|line rest]; cbn [takeFitting].
  - now rewrite app_nil_r.
  - now rewrite Ha, app_nil_r.
Qed.

(** ** The build with a line of 64 KiB *)

Lemma fits_longLine : fits longLine = false.
Proof.
  apply fits_replicate. rewrite Z2Nat.id; unfold MaxScanTokenSize; lia.
Qed.

Lemma dropCR_longLine : dropCR longLine = longLine.
Proof. now apply dropCR_replicate. Qed.

Lemma isMarker_longLine : isMarker "__section__ " longLine = false.
Proof. now apply Contains_replicate. Qed.

Lemma rawLines_longLineBuild :
  rawLines (delivered longLineBuild) =
  ["first"; longLine; "RUN __section__ install"; "Successfully built 4f5a6b7c8d9e"].
Proof.
  apply rawLines_unlines. cbn [forallb]. unfold longLine at 1.
  now rewrite (noLF_replicate _ "x" eq_refl).
Qed.

Lemma linesOf_longLineBuild :
  linesOf (written longLineBuild) =
  ["first"; longLine; "RUN __section__ install"; "Successfully built 4f5a6b7c8d9e"].
Proof.
  unfold linesOf. change (written longLineBuild) with (delivered longLineBuild).
  rewrite rawLines_longLineBuild. cbn [List.map]. now rewrite dropCR_longLine.
Qed.

Lemma scanned_longLineBuild : scanned longLineBuild = ["first"].
Proof.
  apply (scanned_up_to longLineBuild ["first"]
           [longLine; "RUN __section__ install"; "Successfully built 4f5a6b7c8d9e"]).
  - exact rawLines_longLineBuild.
  - reflexivity.
  - exact fits_longLine.
Qed.

End stream_facts.

Module streams.
Import strings strings_facts docker scanner_facts examples stream_facts.

(** C2, as the code has it.  The log stream is the bytes read from the
    pipe of the build, up to its end or to a failed read.  When each of its
    lines is shorter than 64 KiB and N of them are section markers, the
    goroutine's last action is to send the trailing log window, and it
    sends it once; the window is the lines after the N-th marker (all lines
    when N = 0), without their line ends: no marker line is in it, and it
    is the part of the stream that follows a marker line, in the order of
    arrival.  The window is empty right after every marker line of the
    stream. *)
Theorem stream_window_after_last_marker
    (SectionPrefix SectionStartingBuild : string) (p : Pipe) :
  forallb fits (rawLines (delivered p)) = true ->
  let lines := linesOf (delivered p) in
  let N := countMarkers SectionPrefix lines in
  let window := afterNthMarker SectionPrefix N lines in
  (exists acts,
      scanPipe SectionPrefix SectionStartingBuild p = (acts ++ [ASendLastLogs window])%list /\
      Forall (fun a => isSendLastLogs a = false) acts) /\
  Forall (fun l => isMarker SectionPrefix l = false) window /\
  ((N = O /\ window = lines) \/
   (exists before marker,
       isMarker SectionPrefix marker = true /\
       lines = (before ++ marker :: window)%list)) /\
  (forall before marker rest,
      lines = (before ++ marker :: rest)%list ->
      isMarker SectionPrefix marker = true ->
      lastLogs SectionPrefix SectionStartingBuild (before ++ [marker]) = []).
Proof.
  intros Hf. cbn zeta. unfold scanPipe. rewrite (scanned_in_full p Hf).
  destruct (publisher.window_of_scanned_lines SectionPrefix SectionStartingBuild
              (linesOf (delivered p))) as (Hs & Hw & Hl & Hr).
  repeat split; try assumption.
  intros before marker rest _ Hm. now apply Hr.
Qed.

(** The build with Windows line ends: the window is the two lines after
    its marker line, and it is empty when that marker line has been
    read. *)
Lemma stream_window_after_last_marker_witness :
  (exists acts,
      scanPipe "__section__ " "starting build" shortLineBuild =
        (acts ++ [ASendLastLogs ["Collecting numpy"; "Successfully built 4f5a6b7c8d9e"]])%list /\
      Forall (fun a => isSendLastLogs a = false) acts) /\
  lastLogs "__section__ " "starting build" (["Step 1/2"] ++ ["RUN __section__ install"]) = [].
Proof.
  pose proof (stream_window_after_last_marker "__section__ " "starting build"
                shortLineBuild eq_refl) as (Hs & _ & _ & Hr).
  split.
  - exact Hs.
  - exact (Hr ["Step 1/2"] "RUN __section__ install"
              ["Collecting numpy"; "Successfully built 4f5a6b7c8d9e"] eq_refl eq_refl).
Defined.

(** The stream of [longLineBuild] is read to its end and has one marker
    line, after which comes the success line; the scanner stops at the
    line of 64 KiB before them, and the window the goroutine sends is the
    first line. *)
Lemma long_line_cuts_window :
  delivered longLineBuild = written longLineBuild /\
  linesOf (delivered longLineBuild) =
    ["first"; longLine; "RUN __section__ install"; "Successfully built 4f5a6b7c8d9e"] /\
  countMarkers "__section__ " (linesOf (delivered longLineBuild)) = 1%nat /\
  afterNthMarker "__section__ " 1 (linesOf (delivered longLineBuild)) =
    ["Successfully built 4f5a6b7c8d9e"] /\
  scanPipe "__section__ " "starting build" longLineBuild =
    [ALog (LDebug "first"); ASendLastLogs ["first"]].
Proof.
  change (delivered longLineBuild) with (written longLineBuild).
  rewrite linesOf_longLineBuild.
  split; [reflexivity|]. split; [reflexivity|]. split; [|split].
  - cbn [countMarkers]. now rewrite isMarker_longLine.
  - rewrite (afterNthMarker_skip "__section__ " 0 "first" _ eq_refl).
    rewrite (afterNthMarker_skip "__section__ " 0 longLine _ isMarker_longLine).
    now rewrite (afterNthMarker_hit "__section__ " 0 "RUN __section__ install" _ eq_refl).
  - unfold scanPipe. now rewrite scanned_longLineBuild.
Qed.

(** C7, as the code has it.  The log stream is the bytes read from the
    pipe of the build, up to its end or to a failed read.  When one of its
    lines begins, its line end apart, with "Successfully built ", and that
    line and every line before it are shorter than 64 KiB, that line makes
    the goroutine send exactly one tag, the rest of the line with the white
    space around it removed, whatever the goroutine's section and window
    are then; the tags sent for the lines before it are unchanged, and
    the tags after it are those of the lines the scanner yields after it.
    The tag is the rest of the line without the white-space runes it
    starts and ends with, and itself neither starts nor ends with one. *)
Theorem read_success_line_tag
    (SectionPrefix SectionStartingBuild : string) (p : Pipe)
    (before : list string) (line rest : string) (after : list string) :
  rawLines (delivered p) = (before ++ line :: after)%list ->
  forallb fits (before ++ [line]) = true ->
  dropCR line = successPrefix ++ rest ->
  tagsOf (scanPipe SectionPrefix SectionStartingBuild p) =
    (tagsOf (scanner SectionPrefix SectionStartingBuild (List.map dropCR before))
     ++ TrimSpace rest
     :: tagsOf (scanner SectionPrefix SectionStartingBuild
                  (List.map dropCR (takeFitting after))))%list /\
  (forall st,
      tagsOf (snd (scanLine SectionPrefix st (dropCR line))) = [TrimSpace rest]) /\
  (exists l r, rest = l ++ TrimSpace rest ++ r /\ Spaces l /\ Spaces r) /\
  spaceWidth (TrimSpace rest) = O /\
  spaceWidthLast (rev (TrimSpace rest)) = O.
Proof.
  intros Hr Hf Hl.
  destruct (publisher.legacy_tag_of_scanned_line SectionPrefix SectionStartingBuild
              (List.map dropCR before) rest (List.map dropCR (takeFitting after)))
    as (Hone & Hall & Htrim).
  split; [|split; [|exact Htrim]].
  - unfold scanPipe, scanned. rewrite Hr.
    change (before ++ line :: after)%list with (before ++ [line] ++ after)%list.
    rewrite app_assoc, (takeFitting_app _ _ Hf), <- app_assoc.
    cbn [app]. rewrite List.map_app. cbn [List.map]. rewrite Hl. exact Hall.
  - intros st. rewrite Hl. apply Hone.
Qed.

(** The build whose pipe fails in its third line: the success line was
    read before, and its tag is sent. *)
Lemma read_success_line_tag_witness :
  tagsOf (scanPipe "__section__ " "starting build" brokenPipeBuild) =
    (tagsOf (scanner "__section__ " "starting build" ["RUN __section__ install"])
     ++ "4f5a6b7c8d9e"
     :: tagsOf (scanner "__section__ " "starting build" ["Removing inter"]))%list.
Proof.
  exact (proj1 (read_success_line_tag "__section__ " "starting build" brokenPipeBuild
                  ["RUN __section__ install"] "Successfully built 4f5a6b7c8d9e"
                  "4f5a6b7c8d9e" ["Removing inter"] eq_refl eq_refl eq_refl)).
Defined.

(** The stream of [longLineBuild] is read to its end and has a success
    line; the scanner stops at the line of 64 KiB before it, and the
    goroutine sends no tag. *)
Lemma long_line_hides_success_line :
  delivered longLineBuild = written longLineBuild /\
  In (successPrefix ++ "4f5a6b7c8d9e") (linesOf (delivered longLineBuild)) /\
  scanPipe "__section__ " "starting build" longLineBuild =
    [ALog (LDebug "first"); ASendLastLogs ["first"]] /\
  tagsOf (scanPipe "__section__ " "starting build" longLineBuild) = [].
Proof.
  change (delivered longLineBuild) with (written longLineBuild).
  rewrite linesOf_longLineBuild. unfold scanPipe. rewrite scanned_longLineBuild.
  split; [reflexivity|]. split; [|split; reflexivity].
  right. right. right. left. reflexivity.
Qed.

(** X3.  The goroutine writes to the logger at debug level the lines
    read from the pipe that come before the first line of 64 KiB or more
    (all of them when there is none), without their line ends and in the
    order of arrival, and one line at info level for each section marker
    among them: that line and the lines after it are not logged, and the
    goroutine acts as if the stream ended before that line. *)
Theorem lines_logged_up_to_long_line
    (SectionPrefix SectionStartingBuild : string) (p : Pipe)
    (before after : list string) :
  rawLines (delivered p) = (before ++ after)%list ->
  forallb fits before = true ->
  match after with [] => True | line :: _ => fits line = false end ->
  scanPipe SectionPrefix SectionStartingBuild p =
    scanner SectionPrefix SectionStartingBuild (List.map dropCR before) /\
  debugLines (logsOf (scanPipe SectionPrefix SectionStartingBuild p)) =
    List.map dropCR before /\
  length (infoLines (logsOf (scanPipe SectionPrefix SectionStartingBuild p))) =
    countMarkers SectionPrefix (List.map dropCR before).
Proof.
  intros Hr Hb Ha. unfold scanPipe. rewrite (scanned_up_to p before after Hr Hb Ha).
  split; [reflexivity|].
  apply classifier.logs_of_scanned_lines.
Qed.

(** Of the build with a line of 64 KiB, the first line is logged. *)
Lemma lines_logged_up_to_long_line_witness :
  debugLines (logsOf (scanPipe "__section__ " "starting build" longLineBuild)) = ["first"].
Proof.
  exact (proj1 (proj2
    (lines_logged_up_to_long_line "__section__ " "starting build" longLineBuild
       ["first"]
       [longLine; "RUN __section__ install"; "Successfully built 4f5a6b7c8d9e"]
       rawLines_longLineBuild eq_refl fits_longLine))).
Defined.

End streams.
